(** * Completeness magnitude of a seismicity catalog

    A shallow embedding of [completeness_magnitude.py] (class [Catalog]):
    the constructor, [maximum_curvature] and [goodness_of_fit_test]; of
    [manage_paths.py]: [manage_paths], [get_file_names] and
    [save_fig_custom]; and of the short file name of [example.py].

    Numbers.  A value of NumPy's float64 is modelled by [float64]: a
    rational number or one of the IEEE special values +inf, -inf, NaN.  The
    special values follow the IEEE rules that NumPy applies (NaN is
    absorbing, every comparison with NaN is false, x/0 is an infinity or
    NaN and raises nothing).  The operations [fadd], [fsub], [fmul] and
    [fdiv] are the exact ones.  [Module Binary64] rounds each of them to
    binary64 and holds the constructor as NumPy computes it; the facts about
    the values of the rounding, of the grid and of the cumulative
    frequencies are stated there.  The properties proved with the exact
    operations concern the order of the labels, the counts and the choice
    among the residuals.  The sign of zero is not modelled.

    Errors.  A Python exception is the name of its class.

    Effects.  Plots and printed messages do not influence any returned
    value and are left out; the constructor's in-place update of the
    [Magnitude] column is the [catalog] field of the constructed object. *)

From Stdlib Require Import String ZArith QArith Qround Qabs Qpower List Sorted
  Bool Lia Lqa.
Import ListNotations.

Set Implicit Arguments.

(** ** Exceptions *)

Inductive result (A : Type) : Type :=
| Ok (a : A)
| Err (exception : string).

Arguments Ok {A} a.
Arguments Err {A} exception.

Definition bind {A B : Type} (r : result A) (k : A -> result B) : result B :=
  match r with
  | Ok a => k a
  | Err e => Err e
  end.

Notation "x <- r ;; k" := (bind r (fun x => k))
  (at level 61, r at next level, right associativity).

Fixpoint mapM {A B : Type} (f : A -> result B) (l : list A) : result (list B) :=
  match l with
  | [] => Ok []
  | a :: t => b <- f a ;; bs <- mapM f t ;; Ok (b :: bs)
  end.

(** [l[i]] on a Python list or a NumPy array, for an index [i >= 0]. *)
Definition getitem {A : Type} (l : list A) (i : nat) : result A :=
  match nth_error l i with
  | Some a => Ok a
  | None => Err "IndexError"
  end.

(** ** float64 *)

Inductive float64 : Type :=
| Fin (q : Q)
| PInf
| NInf
| NaN.

Definition isnan (x : float64) : bool :=
  match x with NaN => true | _ => false end.

Definition of_nat (n : nat) : float64 := Fin (inject_Z (Z.of_nat n)).

(** The sign of a value against zero; [Eq] for zero and, unused, for NaN. *)
Definition fsign (x : float64) : comparison :=
  match x with
  | Fin q => (q ?= 0)%Q
  | PInf => Gt
  | NInf => Lt
  | NaN => Eq
  end.

Definition sign_mul (a b : comparison) : comparison :=
  match a, b with
  | Eq, _ | _, Eq => Eq
  | Gt, Gt | Lt, Lt => Gt
  | _, _ => Lt
  end.

(** The infinity of a given sign; a zero sign is the invalid case. *)
Definition inf_of_sign (c : comparison) : float64 :=
  match c with Gt => PInf | Lt => NInf | Eq => NaN end.

Definition fneg (x : float64) : float64 :=
  match x with
  | Fin q => Fin (- q)
  | PInf => NInf
  | NInf => PInf
  | NaN => NaN
  end.

Definition fadd (x y : float64) : float64 :=
  match x, y with
  | NaN, _ | _, NaN => NaN
  | Fin a, Fin b => Fin (a + b)
  | PInf, NInf | NInf, PInf => NaN
  | PInf, _ | _, PInf => PInf
  | NInf, _ | _, NInf => NInf
  end.

Definition fsub (x y : float64) : float64 := fadd x (fneg y).

Definition fmul (x y : float64) : float64 :=
  match x, y with
  | NaN, _ | _, NaN => NaN
  | Fin a, Fin b => Fin (a * b)
  | _, _ => inf_of_sign (sign_mul (fsign x) (fsign y))
  end.

(** Division never raises: a zero divisor gives an infinity, or NaN for 0/0. *)
Definition fdiv (x y : float64) : float64 :=
  match x, y with
  | NaN, _ | _, NaN => NaN
  | Fin a, Fin b =>
      if Qeq_bool b 0 then inf_of_sign (a ?= 0)%Q else Fin (a / b)
  | Fin _, _ => Fin 0
  | _, Fin b => inf_of_sign (sign_mul (fsign x) (if Qle_bool 0 b then Gt else Lt))
  | _, _ => NaN
  end.

Definition fabs (x : float64) : float64 :=
  match x with
  | Fin q => Fin (Qabs q)
  | PInf | NInf => PInf
  | NaN => NaN
  end.

(** Ordering; [None] when an operand is NaN. *)
Definition fcompare (x y : float64) : option comparison :=
  match x, y with
  | NaN, _ | _, NaN => None
  | Fin a, Fin b => Some (a ?= b)%Q
  | PInf, PInf | NInf, NInf => Some Eq
  | PInf, _ | _, NInf => Some Gt
  | NInf, _ | _, PInf => Some Lt
  end.

Definition fgtb (x y : float64) : bool :=
  match fcompare x y with Some Gt => true | _ => false end.

Definition fgeb (x y : float64) : bool :=
  match fcompare x y with Some Gt | Some Eq => true | _ => false end.

Definition fleb (x y : float64) : bool :=
  match fcompare x y with Some Lt | Some Eq => true | _ => false end.

(** [np.round] on one number: to the nearest integer, halves to the even one. *)
Definition round_half_even (q : Q) : Z :=
  let f := Qfloor q in
  match (q - inject_Z f ?= 1 # 2)%Q with
  | Lt => f
  | Gt => (f + 1)%Z
  | Eq => if Z.even f then f else (f + 1)%Z
  end.

Definition np_round (x : float64) : float64 :=
  match x with
  | Fin q => Fin (inject_Z (round_half_even q))
  | _ => x
  end.

(** [np.sum] of a sequence of floats; the empty sum is 0. *)
Definition np_sum (l : list float64) : float64 :=
  fold_right fadd (Fin 0) l.

(** The mean of a pandas Series: NaN when the Series is empty. *)
Definition np_mean (l : list float64) : float64 :=
  match l with
  | [] => NaN
  | _ => fdiv (np_sum l) (of_nat (length l))
  end.

(** [np.where(mask)[0]]: the positions at which the mask holds. *)
Fixpoint where_from (i : nat) (mask : list bool) : list nat :=
  match mask with
  | [] => []
  | b :: t => if b then i :: where_from (S i) t else where_from (S i) t
  end.

Definition np_where (mask : list bool) : list nat := where_from 0 mask.

(** [np.arange(start, stop, step)]: [ceil((stop - start) / step)] values
    [start + i * step], none when that length is not positive. *)
Definition np_arange (start stop step : float64) : result (list float64) :=
  match start, stop, step with
  | Fin a, Fin b, Fin s =>
      if Qeq_bool s 0 then Err "ZeroDivisionError"
      else Ok (map (fun i => Fin (a + inject_Z (Z.of_nat i) * s))
                 (seq 0 (Z.to_nat (Qceiling ((b - a) / s)))))
  | _, _, _ => Err "ValueError"
  end.

(** ** The catalog as a data frame *)

Record Event : Type := { DateTime : Z; Magnitude : float64 }.

Definition DataFrame : Type := list Event.

(** A pandas Series: index labels with their values, in index order. *)
Definition Series (V : Type) : Type := list (float64 * V).

Definition index {V : Type} (s : Series V) : list float64 := map fst s.

(** Adds one row to the groups, kept sorted by key. *)
Fixpoint insert_group (m : float64) (g : Series nat) : Series nat :=
  match g with
  | [] => [(m, 1%nat)]
  | (k, c) :: t =>
      match fcompare m k with
      | Some Lt => (m, 1%nat) :: g
      | Some Eq => (k, S c) :: t
      | Some Gt => (k, c) :: insert_group m t
      | None => g
      end
  end.

(** [df.groupby("Magnitude").count()["DateTime"]]: one entry per distinct
    magnitude, in increasing order, holding the number of rows of that
    magnitude (every row has a [DateTime]); rows whose key is NaN belong to
    no group. *)
Definition groupby_Magnitude_count (df : DataFrame) : Series nat :=
  fold_right
    (fun e g => if isnan (Magnitude e) then g else insert_group (Magnitude e) g)
    [] df.

(** [s.index[0]] and [s.index[-1]]. *)
Definition index_first {V : Type} (s : Series V) : result float64 :=
  match index s with
  | [] => Err "IndexError"
  | k :: _ => Ok k
  end.

Definition index_last {V : Type} (s : Series V) : result float64 :=
  match rev (index s) with
  | [] => Err "IndexError"
  | k :: _ => Ok k
  end.

(** ** class Catalog *)

Record Catalog : Type := {
  catalog : DataFrame;
  delta_magnitude : float64;
  magnitudes_in_catalog : list float64;
  cumulative_magnitude_frequency : list nat
}.

(** The rounding of the [Magnitude] column to the bin width. *)
Definition round_to_bin (delta_magnitude : float64) (e : Event) : Event :=
  {| DateTime := DateTime e;
     Magnitude :=
       fmul (np_round (fdiv (Magnitude e) delta_magnitude)) delta_magnitude |}.

(** [catalog[catalog["Magnitude"] > bound]]: the rows above a bound. *)
Definition catalog_above (df : DataFrame) (bound : float64) : DataFrame :=
  filter (fun e => fgtb (Magnitude e) bound) df.

Definition __init__ (catalog : DataFrame) (delta_magnitude : float64)
  : result Catalog :=
  let catalog := map (round_to_bin delta_magnitude) catalog in
  lo <- index_first (groupby_Magnitude_count catalog) ;;
  hi <- index_last (groupby_Magnitude_count catalog) ;;
  magnitudes_in_catalog <-
    np_arange lo (fadd hi delta_magnitude) delta_magnitude ;;
  Ok {| catalog := catalog;
        delta_magnitude := delta_magnitude;
        magnitudes_in_catalog := magnitudes_in_catalog;
        cumulative_magnitude_frequency :=
          map (fun magnitude =>
                 length
                   (catalog_above catalog
                      (fsub magnitude (fdiv delta_magnitude (Fin 2)))))
            magnitudes_in_catalog |}.

(** A catalog given by its rows, each a timestamp and a magnitude. *)
Definition rows (l : list (Z * Q)) : DataFrame :=
  map (fun r => {| DateTime := fst r; Magnitude := Fin (snd r) |}) l.

(** ** maximum_curvature *)

(** [s.cumsum()] on a Series of counts. *)
Fixpoint cumsum_from (acc : nat) (s : Series nat) : Series nat :=
  match s with
  | [] => []
  | (k, c) :: t => (k, (acc + c)%nat) :: cumsum_from (acc + c) t
  end.

Definition cumsum (s : Series nat) : Series nat := cumsum_from 0 s.

(** [s.diff()]: each value minus the one before it; the first entry has no
    predecessor and holds NaN. *)
Fixpoint diff_from (prev : nat) (s : Series nat) : Series float64 :=
  match s with
  | [] => []
  | (k, c) :: t => (k, fsub (of_nat c) (of_nat prev)) :: diff_from c t
  end.

Definition diff (s : Series nat) : Series float64 :=
  match s with
  | [] => []
  | (k, c) :: t => (k, NaN) :: diff_from c t
  end.

(** The label of the first largest value seen so far. *)
Fixpoint idxmax_from (best : float64 * float64) (s : Series float64) : float64 :=
  match s with
  | [] => fst best
  | kv :: t => idxmax_from (if fgtb (snd kv) (snd best) then kv else best) t
  end.

Definition dropna (s : Series float64) : Series float64 :=
  filter (fun kv => negb (isnan (snd kv))) s.

(** [s.idxmax()]: the label of the first occurrence of the largest value,
    NaN entries skipped.  On an empty Series pandas raises ValueError; on a
    Series holding only NaN the pandas of the program's date (2.0) returns
    NaN. *)
Definition idxmax (s : Series float64) : result float64 :=
  match s with
  | [] => Err "ValueError"
  | _ => match dropna s with
         | [] => Ok NaN
         | kv :: t => Ok (idxmax_from kv t)
         end
  end.

(** A Series of counts seen as a Series of numbers. *)
Definition as_float (s : Series nat) : Series float64 :=
  map (fun kc => (fst kc, of_nat (snd kc))) s.

Definition most_common_magnitude (self : Catalog) : result float64 :=
  idxmax (as_float (groupby_Magnitude_count (catalog self))).

Definition distribution_derivative (self : Catalog) : Series float64 :=
  diff (cumsum (groupby_Magnitude_count (catalog self))).

Definition maximum_curvature (self : Catalog) : result float64 :=
  _ <- most_common_magnitude self ;;
  inflection_magnitude <- idxmax (distribution_derivative self) ;;
  Ok inflection_magnitude.

(** ** goodness_of_fit_test *)

Section GoodnessOfFit.

(** NumPy's elementary functions [np.exp], [np.log10] and [10 ** x]. *)
Variable np_exp : float64 -> float64.
Variable np_log10 : float64 -> float64.
Variable pow10 : float64 -> float64.

Definition tested_magnitudes (max_curvature_estimation : float64)
  : list float64 :=
  map (fun i =>
         fadd (fsub max_curvature_estimation (Fin 0.4))
           (fdiv (fsub (of_nat i) (Fin 1)) (Fin 10)))
    (seq 0 15).

(** The body of the loop over the tested magnitudes: the residual, in
    percent, of the Gutenberg-Richter model fitted above one cutoff. *)
Definition residual (self : Catalog) (tested : float64) : result float64 :=
  let half_bin := fdiv (delta_magnitude self) (Fin 2) in
  let catalog_above_tested_magnitude :=
    catalog_above (catalog self) (fsub tested half_bin) in
  let b_value_gr :=
    fdiv (np_log10 (np_exp (Fin 1)))
      (fsub (np_mean (map Magnitude catalog_above_tested_magnitude))
         (fsub tested half_bin)) in
  let a_value_gr :=
    fadd (np_log10 (of_nat (length catalog_above_tested_magnitude)))
      (fmul b_value_gr tested) in
  let frequency_magnitude_cumulative_model :=
    map (fun g => pow10 (fsub a_value_gr (fmul b_value_gr g)))
      (magnitudes_in_catalog self) in
  let index_of_magnitude_above_tested :=
    np_where (map (fun g => fgeb g tested) (magnitudes_in_catalog self)) in
  cumulative_frequency_above_magnitude <-
    mapM (getitem (cumulative_magnitude_frequency self))
      index_of_magnitude_above_tested ;;
  cumulative_frequency_above_magnitude_model <-
    mapM (getitem frequency_magnitude_cumulative_model)
      index_of_magnitude_above_tested ;;
  Ok (fmul
        (fdiv
           (np_sum
              (map (fun om => fabs (fsub (of_nat (fst om)) (snd om)))
                 (combine cumulative_frequency_above_magnitude
                    cumulative_frequency_above_magnitude_model)))
           (of_nat (fold_right Nat.add 0%nat cumulative_frequency_above_magnitude)))
        (Fin 100)).

Definition residuals (self : Catalog) (tested_magnitudes : list float64)
  : result (list float64) :=
  mapM (fun i => t <- getitem tested_magnitudes i ;; residual self t)
    (seq 0 15).

(** [np.where(residuals <= threshold)[0]]. *)
Definition index_of_first_low_residual (residuals : list float64)
    (threshold : float64) : list nat :=
  np_where (map (fun r => fleb r threshold) residuals).

(** The choice made after the loop. *)
Definition select_completeness (max_curvature_estimation : float64)
    (tested_magnitudes residuals : list float64) : result float64 :=
  match index_of_first_low_residual residuals (Fin 5) with
  | i :: _ => getitem tested_magnitudes i
  | [] =>
      match index_of_first_low_residual residuals (Fin 10) with
      | i :: _ => getitem tested_magnitudes i
      | [] => Ok max_curvature_estimation
      end
  end.

Definition goodness_of_fit_test (self : Catalog) : result float64 :=
  max_curvature_estimation <- maximum_curvature self ;;
  let tested_magnitudes := tested_magnitudes max_curvature_estimation in
  residuals <- residuals self tested_magnitudes ;;
  select_completeness max_curvature_estimation tested_magnitudes residuals.

End GoodnessOfFit.

(** ** A reference instance of the elementary functions

    The three NumPy functions are parameters of [goodness_of_fit_test].  To
    run the program on a concrete catalog they are instantiated here by
    truncated power series over the rationals, rounded to a multiple of
    2^-64; they agree with the real functions to better than float64
    precision on the arguments used below, and the values [log10 1 = 0]
    and [10 ** 0 = 1] are exact. *)

Module Numeric.

(** The nearest multiple of [2^-bits]. *)
Definition snap_to (bits : positive) (q : Q) : Q :=
  Qred (Qfloor (q * inject_Z (2 ^ Zpos bits) + (1 # 2)) # (2 ^ bits)).

Definition snap : Q -> Q := snap_to 64.
Definition guard : Q -> Q := snap_to 80.

(** [acc + sum (term * x^j / ((k+1) ... (k+j)))] over [j < fuel]. *)
Fixpoint exp_terms (fuel : nat) (k : Z) (x term acc : Q) : Q :=
  match fuel with
  | O => acc
  | S f =>
      exp_terms f (k + 1)%Z x
        (guard (term * x / inject_Z (k + 1))) (Qred (acc + term))
  end.

(** exp on a small argument. *)
Definition exp_small (x : Q) : Q := snap (exp_terms 40 0 x 1 0).

(** [acc + sum (pow * z2^j / (2 (k+j) + 1))] over [j < fuel]. *)
Fixpoint atanh_terms (fuel : nat) (k : Z) (z2 pow acc : Q) : Q :=
  match fuel with
  | O => acc
  | S f =>
      atanh_terms f (k + 1)%Z z2 (guard (pow * z2))
        (guard (acc + pow / inject_Z (2 * k + 1)))
  end.

(** ln on an argument between 1/2 and 2. *)
Definition ln_near_one (m : Q) : Q :=
  let z := guard ((m - 1) / (m + 1)) in
  2 * atanh_terms 40 0 (guard (z * z)) z 0.

Definition ln2 : Q := Eval vm_compute in snap (ln_near_one 2).

(** ln on a positive argument [x = m * 2^e]. *)
Definition ln (x : Q) : Q :=
  let e := (Z.log2 (Qnum x) - Z.log2 (Zpos (Qden x)))%Z in
  let m := Qred (x / Qpower 2 e) in
  snap (inject_Z e * ln2 + ln_near_one m).

Definition ln10 : Q := Eval vm_compute in ln 10.

Definition e1 : Q := Eval vm_compute in exp_small 1.

Definition np_exp (x : float64) : float64 :=
  match x with
  | Fin q =>
      let n := Qfloor q in
      Fin (Qred (Qpower e1 n * exp_small (q - inject_Z n)))
  | PInf => PInf
  | NInf => Fin 0
  | NaN => NaN
  end.

Definition np_log10 (x : float64) : float64 :=
  match x with
  | Fin q =>
      match (q ?= 0)%Q with
      | Gt => Fin (snap (ln q / ln10))
      | Eq => NInf
      | Lt => NaN
      end
  | PInf => PInf
  | NInf | NaN => NaN
  end.

Definition pow10 (x : float64) : float64 :=
  match x with
  | Fin q =>
      let n := Qfloor q in
      Fin (Qred (Qpower 10 n * exp_small (snap ((q - inject_Z n) * ln10))))
  | PInf => PInf
  | NInf => Fin 0
  | NaN => NaN
  end.

End Numeric.

(** * Binary64 arithmetic

    NumPy computes in IEEE binary64.  The result of an operation is the
    exact result rounded to the nearest number with a significand of 53
    bits, a tie going to the even significand; below [2^-1022] the spacing
    of the numbers is [2^-1074]; a result that rounds to [2^1024] or more is
    an infinity.  [Module Binary64] has this rounding and the constructor
    with every operation rounded.  The sign of zero is not modelled. *)

Module Binary64.

Definition pow2 (e : Z) : Q := (2 ^ e)%Q.

(** The exponent [e] with [2^e <= |q| < 2^(e+1)], for [q] other than 0. *)
Definition ilog2 (q : Q) : Z :=
  let e := (Z.log2 (Z.abs (Qnum q)) - Z.log2 (Zpos (Qden q)))%Z in
  if Qle_bool (pow2 e) (Qabs q) then e else (e - 1)%Z.

(** The exponent of the spacing of the binary64 numbers around [q]. *)
Definition ulp_exp (q : Q) : Z := (Z.max (ilog2 q) (-1022) - 52)%Z.

(** The nearest multiple of the spacing, a tie going to the even multiple. *)
Definition nearest (q : Q) : Q :=
  if Qeq_bool q 0 then q
  else (inject_Z (round_half_even (q / pow2 (ulp_exp q)))
        * pow2 (ulp_exp q))%Q.

(** The rounding of an exact result.  A number that needs no rounding is
    kept as it is. *)
Definition round64 (x : float64) : float64 :=
  match x with
  | Fin q =>
      let r := nearest q in
      if Qle_bool (pow2 1024) (Qabs r) then
        if Qle_bool 0 q then PInf else NInf
      else if Qeq_bool r q then Fin q
      else Fin (Qred r)
  | _ => x
  end.

Definition add (x y : float64) : float64 := round64 (fadd x y).
Definition sub (x y : float64) : float64 := round64 (fsub x y).
Definition mul (x y : float64) : float64 := round64 (fmul x y).
Definition div (x y : float64) : float64 := round64 (fdiv x y).

(** The binary64 number that a decimal literal of the program denotes. *)
Definition literal (q : Q) : float64 := round64 (Fin q).

(** [np.arange(start, stop, step)] on floats: the length is the ceiling of
    the rounded quotient [(stop - start) / step]; the first two values are
    [start] and [start + step], and value [i] is [start + i * delta], where
    [delta] is the difference of the first two values. *)
Definition np_arange (start stop step : float64) : result (list float64) :=
  match start, stop, step with
  | Fin _, Fin _, Fin s =>
      if Qeq_bool s 0 then Err "ZeroDivisionError"%string
      else
        match div (sub stop start) step with
        | Fin n =>
            let next := add start step in
            let delta := sub next start in
            Ok (map (fun i =>
                       match i with
                       | 0%nat => start
                       | 1%nat => next
                       | _ => add start (mul (of_nat i) delta)
                       end)
                    (seq 0 (Z.to_nat (Qceiling n))))
        | _ => Err "ValueError"%string
        end
  | _, _, _ => Err "ValueError"%string
  end.

Definition round_to_bin (delta_magnitude : float64) (e : Event) : Event :=
  {| DateTime := DateTime e;
     Magnitude :=
       mul (np_round (div (Magnitude e) delta_magnitude)) delta_magnitude |}.

Definition __init__ (catalog : DataFrame) (delta_magnitude : float64)
  : result Catalog :=
  let catalog := map (round_to_bin delta_magnitude) catalog in
  lo <- index_first (groupby_Magnitude_count catalog) ;;
  hi <- index_last (groupby_Magnitude_count catalog) ;;
  magnitudes_in_catalog <-
    np_arange lo (add hi delta_magnitude) delta_magnitude ;;
  Ok {| catalog := catalog;
        delta_magnitude := delta_magnitude;
        magnitudes_in_catalog := magnitudes_in_catalog;
        cumulative_magnitude_frequency :=
          map (fun magnitude =>
                 length
                   (catalog_above catalog
                      (sub magnitude (div delta_magnitude (Fin 2)))))
            magnitudes_in_catalog |}.

End Binary64.

(** * Paths and file names ([manage_paths.py], [example.py])

    A Python value that these functions handle is a str or a list of such
    values.  The calls that create directories and save figures are recorded
    in the order in which they are made; what the operating system or
    Matplotlib does with them, and the errors they may raise themselves, are
    outside the model. *)

#[warnings="-register-all"]
Inductive pyobj : Type :=
| Str (s : string)
| PyList (l : list pyobj).

(** [s.startswith(prefix)] *)
Definition startswith (s prefix : string) : bool := String.prefix prefix s.

(** [s.endswith(suffix)] *)
Fixpoint endswith (s suffix : string) : bool :=
  if String.eqb s suffix then true
  else match s with
       | EmptyString => false
       | String _ s' => endswith s' suffix
       end.

(** [sub in s] on two str *)
Fixpoint contains (sub s : string) : bool :=
  if String.prefix sub s then true
  else match s with
       | EmptyString => false
       | String _ s' => contains sub s'
       end.

(** [manage_paths]: the directories passed to [mkdir], in order, and the
    value returned.  [separate_figure_format] is [Some] list of str, or
    [None] for a value that is not a list. *)
Definition manage_paths (script_name : string) (output figures : bool)
    (separate_figure_format : option (list string)) (videos : bool)
  : list string * pyobj :=
  let made : list string := [] in
  let returns : list pyobj := [] in
  let '(made, returns) :=
    if output then
      let path_to_ouptut := ("../2_pipeline/" ++ script_name)%string in
      (made ++ [path_to_ouptut], returns ++ [Str path_to_ouptut])
    else (made, returns) in
  let '(made, returns) :=
    if figures then
      match separate_figure_format with
      | Some l =>
          let paths_to_figures :=
            map (fun formats =>
                   ("../3_outputs/" ++ script_name ++ "/Figures_" ++ formats)%string)
                l in
          (made ++ paths_to_figures,
           returns ++ [PyList (map Str paths_to_figures)])
      | None =>
          let path_to_figures :=
            ("../3_outputs/" ++ script_name ++ "/Figures")%string in
          (made ++ [path_to_figures], returns ++ [PyList [Str path_to_figures]])
      end
    else (made, returns) in
  let '(made, returns) :=
    if videos then
      let path_to_videos :=
        ("../3_outputs/" ++ script_name ++ "/videos")%string in
      (made ++ [path_to_videos], returns ++ [Str path_to_videos])
    else (made, returns) in
  (made, match returns with
         | [r] => r
         | _ => PyList returns
         end).

(** The default arguments of [manage_paths]. *)
Definition default_figure_format : list string := ["svg"; "png"; "pdf"]%string.

(** [save_fig_custom] on a list of str [path_to_figures]: the files passed
    to [fig.savefig], in order, and the outcome. *)
Fixpoint save_fig_custom (path_to_figures : list string) (figname : string)
    (formats : list string) : list string * result unit :=
  match formats with
  | [] => ([], Ok tt)
  | figure_extension :: rest =>
      let path := filter (contains figure_extension) path_to_figures in
      match getitem path 0 with
      | Err e => ([], Err e)
      | Ok p =>
          let file := (p ++ "/" ++ figname ++ "." ++ figure_extension)%string in
          let '(saved, r) := save_fig_custom path_to_figures figname rest in
          (file :: saved, r)
      end
  end.

(** The default [formats] of [save_fig_custom]. *)
Definition default_formats : list string := ["svg"; "png"]%string.

(** [len(o)] *)
Definition len (o : pyobj) : nat :=
  match o with
  | Str s => String.length s
  | PyList l => length l
  end.

(** [o[i]] for an int [i]: a negative index counts from the end; the item
    of a str is the str of one character. *)
Definition item (o : pyobj) (i : Z) : result pyobj :=
  let n := Z.of_nat (len o) in
  let j := if (i <? 0)%Z then (i + n)%Z else i in
  if ((j <? 0) || (n <=? j))%Z then Err "IndexError"%string
  else match o with
       | Str s =>
           match String.get (Z.to_nat j) s with
           | Some c => Ok (Str (String c EmptyString))
           | None => Err "IndexError"%string
           end
       | PyList l =>
           match nth_error l (Z.to_nat j) with
           | Some x => Ok x
           | None => Err "IndexError"%string
           end
       end.

Section GetFileNames.

(** [os.listdir]: the entries of a directory, or the exception raised. *)
Variable listdir : string -> result (list string).

(** [os.listdir(o)]; a list is not a path. *)
Definition os_listdir (o : pyobj) : result (list string) :=
  match o with
  | Str p => listdir p
  | PyList _ => Err "TypeError"%string
  end.

(** The condition of the comprehension on one entry [f].  The expression
    [file_extensions] is evaluated for each entry; [f.endswith] accepts a
    str and rejects a list. *)
Definition keep (file_extensions : result pyobj)
    (start_with end_with f : string) : result bool :=
  e <- file_extensions ;;
  match e with
  | Str e =>
      Ok (endswith f e && negb (startswith f ".") && startswith f start_with
          && endswith f end_with)
  | PyList _ => Err "TypeError"%string
  end.

Fixpoint select (file_extensions : result pyobj) (start_with end_with : string)
    (entries : list string) : result (list string) :=
  match entries with
  | [] => Ok []
  | f :: t =>
      b <- keep file_extensions start_with end_with f ;;
      fs <- select file_extensions start_with end_with t ;;
      Ok (if b then f :: fs else fs)
  end.

(** [get_file_names]; [path_number] is [None] or an int.  The tuple
    returned is a triple. *)
Definition get_file_names (paths_to_data file_extensions : pyobj)
    (path_number : option Z) (start_with end_with : string)
  : result (pyobj * pyobj * pyobj) :=
  match path_number with
  | None =>
      paths_to_data <-
        (if Nat.eqb (len paths_to_data) 1 then item paths_to_data 0
         else Ok paths_to_data) ;;
      file_extensions <-
        (if Nat.eqb (len file_extensions) 1 then item file_extensions 0
         else Ok file_extensions) ;;
      entries <- os_listdir paths_to_data ;;
      files <- select (Ok file_extensions) start_with end_with entries ;;
      let files :=
        match files with
        | [f] => Str f
        | _ => PyList (map Str files)
        end in
      Ok (paths_to_data, file_extensions, files)
  | Some n =>
      p <- item paths_to_data n ;;
      entries <- os_listdir p ;;
      files <- select (item file_extensions n) start_with end_with entries ;;
      p <- item paths_to_data n ;;
      e <- item file_extensions n ;;
      Ok (p, e, PyList (map Str files))
  end.

End GetFileNames.

(** [s[:k]] on a str, for an int [k]. *)
Definition slice_to (s : string) (k : Z) : string :=
  let n := Z.of_nat (String.length s) in
  let stop := if (k <? 0)%Z then Z.max 0 (n + k) else Z.min k n in
  substring 0 (Z.to_nat stop) s.

(** [example.py]: [file_name[: -len(file_extension)]] *)
Definition short_name (file_name file_extension : string) : string :=
  slice_to file_name (- Z.of_nat (String.length file_extension)).

(** * Notions used in the statements *)

(** ** Ordering of float64, as propositions *)

Definition flt (x y : float64) : Prop := fcompare x y = Some Lt.
Definition feq (x y : float64) : Prop := fcompare x y = Some Eq.
Definition fle (x y : float64) : Prop := fleb x y = true.

(** ** The constructor's rounding on a catalog of numbers *)

(** [round(m / dm) * dm], and the integer [round(m / dm)] of a row. *)
Definition rounded (dm m : Q) : Q := inject_Z (round_half_even (m / dm)) * dm.


Definition rounded_rows (dm : Q) (l : list (Z * Q)) : DataFrame :=
  map (fun r => {| DateTime := fst r; Magnitude := Fin (rounded dm (snd r)) |}) l.

(** ** The survival count *)


(** ** Low residuals *)

(** Candidate [i] has a residual within the threshold; candidate [i] is the
    first such; no candidate is such. *)
Definition low (residuals : list float64) (thr : float64) (i : nat) : Prop :=
  exists r, nth_error residuals i = Some r /\ fleb r thr = true.

Definition first_low (residuals : list float64) (thr : float64) (i : nat)
  : Prop :=
  low residuals thr i /\ forall j, (j < i)%nat -> ~ low residuals thr j.

Definition none_low (residuals : list float64) (thr : float64) : Prop :=
  forall j, ~ low residuals thr j.

(** ** Small catalogs

    Their magnitudes and bin width are multiples of 0.5, on which float64
    arithmetic is exact: the rounded magnitudes, the grid and the outcome
    of every comparison of the program are the same in float64 as in the
    model. *)

(** Two events of magnitude 1.0 and one of magnitude 1.5, bin width 0.5. *)
Definition catalog_mode_first : Catalog :=
  {| catalog := rounded_rows 0.5 [(0%Z, 1.0); (1%Z, 1.0); (2%Z, 1.5)]%Q;
     delta_magnitude := Fin 0.5;
     magnitudes_in_catalog := [Fin 1.00; Fin 1.50]%Q;
     cumulative_magnitude_frequency := [3; 1]%nat |}.

(** Three events of magnitude 2.0, bin width 0.5. *)
Definition catalog_single_value : Catalog :=
  {| catalog := rounded_rows 0.5 [(0%Z, 2.0); (1%Z, 2.0); (2%Z, 2.0)]%Q;
     delta_magnitude := Fin 0.5;
     magnitudes_in_catalog := [Fin 2.00]%Q;
     cumulative_magnitude_frequency := [3]%nat |}.

(** One event of magnitude 1.0 and one of magnitude 1.5, bin width 0.5. *)
Definition catalog_two_events : Catalog :=
  {| catalog := rounded_rows 0.5 [(0%Z, 1.0); (1%Z, 1.5)]%Q;
     delta_magnitude := Fin 0.5;
     magnitudes_in_catalog := [Fin 1.00; Fin 1.50]%Q;
     cumulative_magnitude_frequency := [2; 1]%nat |}.

(** The fifteen residuals of the sweep, in percent: about 8.8, 26.4, 26.4,
    35.9 and 24.9 for the cutoffs 1.0 to 1.4, exactly 0 for the cutoff 1.5,
    and NaN for the cutoffs 1.6 to 2.4, which lie above the grid. *)
Definition residuals_two_events : list float64 :=
  Eval vm_compute in
    match residuals Numeric.np_exp Numeric.np_log10 Numeric.pow10
            catalog_two_events (tested_magnitudes (Fin 1.5)) with
    | Ok res => res
    | Err _ => []
    end.

(** ** Counting the events of one magnitude *)

(** The event has the magnitude [k]. *)
Definition same_magnitude (k : float64) (e : Event) : bool :=
  match fcompare (Magnitude e) k with Some Eq => true | _ => false end.

(** The sum of the values of a Series of counts. *)
Definition total (s : Series nat) : nat :=
  fold_right (fun kc n => (snd kc + n)%nat) 0%nat s.

(** ** Catalogs on which binary64 rounds nothing *)




(** A catalog written with decimal literals: each magnitude is the binary64
    number that the literal denotes. *)
Definition decimal_rows (l : list (Z * Q)) : DataFrame :=
  map (fun r => {| DateTime := fst r; Magnitude := Binary64.literal (snd r) |})
    l.

(** ** Paths and folders *)

(** The str of a value, listed from left to right. *)
Fixpoint paths_of (o : pyobj) : list string :=
  match o with
  | Str s => [s]
  | PyList l => flat_map paths_of l
  end.

(** The number of folders asked for. *)
Definition requested (output figures videos : bool) : nat :=
  ((if output then 1 else 0) + (if figures then 1 else 0)
   + (if videos then 1 else 0))%nat.

(** * Properties *)

(** Splits a conjunction of closed facts into its conjuncts. *)
Ltac split_all := repeat match goal with |- _ /\ _ => split end.

Example init_three :
  __init__ (rows [(0%Z, 1.1); (1%Z, 2.2); (2%Z, 1.0)]%Q) (Fin 0.5) =
  Ok {| catalog := [ {| DateTime := 0; Magnitude := Fin 1.0 |};
                     {| DateTime := 1; Magnitude := Fin 2.0 |};
                     {| DateTime := 2; Magnitude := Fin 1.0 |} ];
        delta_magnitude := Fin 0.5;
        magnitudes_in_catalog := [Fin 1.00; Fin 1.50; Fin 2.00]%Q;
        cumulative_magnitude_frequency := [3; 1; 1]%nat |}.
Proof. vm_compute. reflexivity. Qed.

(** ** Ordering of float64 *)

Lemma fcompare_Fin (a b : Q) : fcompare (Fin a) (Fin b) = Some (a ?= b)%Q.
Proof. reflexivity. Qed.

Lemma flt_Fin (a b : Q) : flt (Fin a) (Fin b) <-> (a < b)%Q.
Proof.
  unfold flt. rewrite fcompare_Fin, Qlt_alt.
  split; [intros H; injection H; auto | intros ->; reflexivity].
Qed.


Lemma fle_Fin (a b : Q) : fle (Fin a) (Fin b) <-> (a <= b)%Q.
Proof.
  unfold fle, fleb. rewrite fcompare_Fin, Qle_alt.
  destruct (a ?= b)%Q; split; intros; congruence.
Qed.

Lemma fgtb_Fin (a b : Q) : fgtb (Fin a) (Fin b) = true <-> (b < a)%Q.
Proof.
  unfold fgtb. rewrite fcompare_Fin, Qgt_alt.
  destruct (a ?= b)%Q; split; intros; congruence.
Qed.


Lemma fcompare_antisym (x y : float64) (c : comparison) :
  fcompare x y = Some c -> fcompare y x = Some (CompOpp c).
Proof.
  destruct x as [a| | |], y as [b| | |]; simpl; try discriminate;
    intros H; injection H as <-; try reflexivity.
  now rewrite Qcompare_antisym.
Qed.

Lemma flt_trans (x y z : float64) : flt x y -> flt y z -> flt x z.
Proof.
  unfold flt.
  destruct x as [a| | |], y as [b| | |], z as [c| | |]; simpl;
    try discriminate; try reflexivity.
  intros H1 H2. injection H1 as H1. injection H2 as H2.
  apply Qlt_alt in H1, H2. f_equal. apply Qlt_alt. now apply Qlt_trans with b.
Qed.

Lemma feq_flt_trans (x y z : float64) : feq x y -> flt y z -> flt x z.
Proof.
  unfold flt, feq.
  destruct x as [a| | |], y as [b| | |], z as [c| | |]; simpl;
    try discriminate; try reflexivity.
  intros H1 H2. injection H1 as H1. injection H2 as H2.
  apply Qeq_alt in H1. apply Qlt_alt in H2. f_equal. apply Qlt_alt.
  now rewrite H1.
Qed.

Lemma flt_feq_trans (x y z : float64) : flt x y -> feq z y -> flt x z.
Proof.
  unfold flt, feq.
  destruct x as [a| | |], y as [b| | |], z as [c| | |]; simpl;
    try discriminate; try reflexivity.
  intros H1 H2. injection H1 as H1. injection H2 as H2.
  apply Qeq_alt in H2. apply Qlt_alt in H1. f_equal. apply Qlt_alt.
  now rewrite H2.
Qed.

Lemma fcompare_not_nan (x y : float64) :
  isnan x = false -> isnan y = false -> exists c, fcompare x y = Some c.
Proof. destruct x, y; simpl; try discriminate; eauto. Qed.

(** ** Grouping by magnitude *)

Lemma insert_group_index_In (m k : float64) (g : Series nat) :
  In k (index (insert_group m g)) -> k = m \/ In k (index g).
Proof.
  induction g as [|[k' c] t IH]; simpl.
  - intros [H|[]]; auto.
  - destruct (fcompare m k') as [[| |]|]; simpl; intros H; auto.
    + destruct H as [H|H]; auto.
    + destruct H as [H|H]; auto. destruct (IH H); auto.
Qed.

Lemma insert_group_index_keeps (m k : float64) (g : Series nat) :
  In k (index g) -> In k (index (insert_group m g)).
Proof.
  induction g as [|[k' c] t IH]; simpl; [tauto|].
  destruct (fcompare m k') as [[| |]|]; simpl; intros [H|H]; auto.
Qed.

Lemma insert_group_index_covers (m : float64) (g : Series nat) :
  isnan m = false ->
  Forall (fun k => isnan k = false) (index g) ->
  exists k, In k (index (insert_group m g)) /\ feq m k.
Proof.
  intros Hm. induction g as [|[k' c] t IH]; simpl; intros Hg.
  - exists m. split; auto. destruct m; try discriminate; unfold feq; simpl; auto.
    f_equal. apply Qeq_alt. reflexivity.
  - inversion Hg as [|? ? Hk Ht]; subst.
    destruct (fcompare_not_nan m k' Hm Hk) as [c' Hc]. rewrite Hc.
    destruct c'; simpl.
    + exists k'. auto.
    + exists m. split; auto. destruct m; try discriminate; unfold feq; simpl; auto.
      f_equal. apply Qeq_alt. reflexivity.
    + destruct (IH Ht) as [k [Hin Heq]]. exists k. auto.
Qed.


Lemma groupby_index_not_nan (df : DataFrame) :
  Forall (fun k => isnan k = false) (index (groupby_Magnitude_count df)).
Proof.
  induction df as [|e df IH]; simpl; [constructor|].
  destruct (isnan (Magnitude e)) eqn:He; auto.
  apply Forall_forall. intros k Hk. apply insert_group_index_In in Hk.
  destruct Hk as [->|Hk]; auto. rewrite Forall_forall in IH. auto.
Qed.

Lemma groupby_index_covers (df : DataFrame) (e : Event) :
  In e df -> isnan (Magnitude e) = false ->
  exists k, In k (index (groupby_Magnitude_count df)) /\ feq (Magnitude e) k.
Proof.
  induction df as [|e' df IH]; simpl; [tauto|].
  intros [->|Hin] Hnan.
  - rewrite Hnan. apply insert_group_index_covers; auto.
    apply groupby_index_not_nan.
  - destruct (IH Hin Hnan) as [k [Hk Heq]].
    destruct (isnan (Magnitude e')); eauto.
    exists k. split; auto. now apply insert_group_index_keeps.
Qed.

(** The group labels are strictly increasing. *)
Lemma insert_group_sorted (m : float64) (g : Series nat) :
  StronglySorted flt (index g) -> StronglySorted flt (index (insert_group m g)).
Proof.
  induction g as [|[k c] t IH]; simpl; intros Hs.
  - repeat constructor.
  - inversion Hs as [|? ? Ht Hall]; subst.
    destruct (fcompare m k) as [[| |]|] eqn:Hc; simpl; auto.
    + constructor; auto. constructor; auto.
      eapply Forall_impl; [|exact Hall]. intros a Ha.
      eapply flt_trans; eauto.
    + constructor; auto.
      apply Forall_forall. intros a Ha. apply insert_group_index_In in Ha.
      destruct Ha as [->|Ha].
      * apply fcompare_antisym in Hc. exact Hc.
      * rewrite Forall_forall in Hall. auto.
Qed.

Lemma groupby_sorted (df : DataFrame) :
  StronglySorted flt (index (groupby_Magnitude_count df)).
Proof.
  induction df as [|e df IH]; simpl; [constructor|].
  destruct (isnan (Magnitude e)); auto. now apply insert_group_sorted.
Qed.


Lemma sorted_first (a : float64) (l : list float64) :
  StronglySorted flt (a :: l) -> forall x, In x l -> flt a x.
Proof.
  intros Hs x Hx. inversion Hs as [|? ? _ Hall]; subst.
  rewrite Forall_forall in Hall. auto.
Qed.


Lemma index_first_Ok {V : Type} (s : Series V) (k : float64) :
  index_first s = Ok k -> exists t, index s = k :: t.
Proof.
  unfold index_first. destruct (index s) as [|k' t]; [discriminate|].
  intros H. injection H as ->. eauto.
Qed.




(** ** The constructor on a catalog of numbers *)







(** ** The grid and the survival counts *)


Lemma nth_error_map_seq {A : Type} (f : nat -> A) (n i : nat) (a : A) :
  nth_error (map f (seq 0 n)) i = Some a <-> (i < n)%nat /\ a = f i.
Proof.
  rewrite nth_error_map. split.
  - destruct (nth_error (seq 0 n) i) as [j|] eqn:E; [|discriminate].
    intros H. injection H as <-.
    assert (Hi : (i < n)%nat).
    { rewrite <- (length_seq n 0). apply nth_error_Some. congruence. }
    rewrite nth_error_seq in E.
    destruct (Nat.ltb_spec i n); [|lia]. injection E as <-. auto.
  - intros [Hi ->]. rewrite nth_error_seq.
    destruct (Nat.ltb_spec i n); [reflexivity | lia].
Qed.



Lemma filter_all {A : Type} (p : A -> bool) (l : list A) :
  (forall x, In x l -> p x = true) -> filter p l = l.
Proof.
  induction l as [|a l IH]; intros H; simpl; [reflexivity|].
  rewrite (H a (or_introl eq_refl)). f_equal. apply IH. intros x Hx.
  apply H. now right.
Qed.





(** ** The constructor on an empty catalog *)

(** C4, as amended. On an empty catalog the constructor raises, whatever
    the bin width: taking the first label of the empty group index is an
    IndexError.  The program defines no exception class of its own. *)
Theorem init_empty_raises_IndexError (dm : float64) :
  __init__ [] dm = Err "IndexError".
Proof. reflexivity. Qed.

(** C4, as stated, fails: the exception raised is not InvalidInputError. *)
Lemma init_empty_not_InvalidInputError :
  __init__ (rows []) (Fin 0.5) <> Err "InvalidInputError".
Proof. discriminate. Qed.

(** ** The derivative of the cumulative counts *)

Lemma diff_from_cumsum_from (acc : nat) (s : Series nat) :
  diff_from acc (cumsum_from acc s) = as_float s.
Proof.
  revert acc. induction s as [|[k c] t IH]; intros acc; [reflexivity|].
  cbn [cumsum_from diff_from as_float map fst snd]. rewrite IH.
  f_equal. f_equal. unfold fsub, fneg, fadd, of_nat, inject_Z, Qplus, Qopp.
  cbn [Qnum Qden]. f_equal. f_equal. lia.
Qed.

Lemma diff_cumsum (k : float64) (c : nat) (t : Series nat) :
  diff (cumsum ((k, c) :: t)) = (k, NaN) :: as_float t.
Proof.
  unfold cumsum. cbn [cumsum_from diff]. now rewrite diff_from_cumsum_from.
Qed.

Lemma dropna_as_float (s : Series nat) : dropna (as_float s) = as_float s.
Proof.
  unfold dropna. apply filter_all. intros [k v] H. unfold as_float in H.
  apply in_map_iff in H. destruct H as [kc [E _]]. injection E as _ <-.
  reflexivity.
Qed.

Lemma idxmax_from_In (best : float64 * float64) (s : Series float64) :
  In (idxmax_from best s) (fst best :: index s).
Proof.
  revert best. induction s as [|kv t IH]; intros best; simpl; auto.
  specialize (IH (if fgtb (snd kv) (snd best) then kv else best)).
  destruct (fgtb (snd kv) (snd best)); simpl in IH; tauto.
Qed.

Lemma idxmax_nonempty (s : Series float64) :
  s <> [] -> exists v, idxmax s = Ok v.
Proof.
  destruct s as [|kv t]; [congruence|]. intros _. unfold idxmax.
  destruct (dropna (kv :: t)); eauto.
Qed.

Lemma index_as_float (s : Series nat) : index (as_float s) = index s.
Proof. unfold index, as_float. rewrite map_map. reflexivity. Qed.

Lemma distribution_derivative_cons
    (self : Catalog) (k : float64) (c : nat) (t : Series nat) :
  groupby_Magnitude_count (catalog self) = (k, c) :: t ->
  distribution_derivative self = (k, NaN) :: as_float t.
Proof.
  intros Hg. unfold distribution_derivative. now rewrite Hg, diff_cumsum.
Qed.

Lemma maximum_curvature_cons
    (self : Catalog) (k : float64) (c : nat) (t : Series nat) :
  groupby_Magnitude_count (catalog self) = (k, c) :: t ->
  maximum_curvature self = idxmax ((k, NaN) :: as_float t).
Proof.
  intros Hg. unfold maximum_curvature, most_common_magnitude.
  rewrite (distribution_derivative_cons self Hg), Hg.
  destruct (@idxmax_nonempty (as_float ((k, c) :: t))) as [v Hv];
    [discriminate|].
  rewrite Hv. cbn [bind].
  destruct (idxmax ((k, NaN) :: as_float t)); reflexivity.
Qed.

(** C2, as amended. The derivative series has one entry per distinct
    magnitude of the catalog.  At the smallest of them it holds NaN; at
    every other one it holds the number of events of that magnitude.
    Hence, when there are at least two distinct magnitudes, the label
    returned by [maximum_curvature] is the [idxmax] of the per-magnitude
    counts with the smallest magnitude left out. *)
Theorem derivative_is_count_after_first
    (self : Catalog) (k : float64) (c : nat) (t : Series nat) :
  groupby_Magnitude_count (catalog self) = (k, c) :: t ->
  distribution_derivative self = (k, NaN) :: as_float t /\
  (t <> [] -> maximum_curvature self = idxmax (as_float t)).
Proof.
  intros Hg. split; [exact (distribution_derivative_cons self Hg)|].
  intros Ht. rewrite (maximum_curvature_cons self Hg). unfold idxmax.
  change (dropna ((k, NaN) :: as_float t)) with (dropna (as_float t)).
  destruct t as [|kc t']; [congruence|]. reflexivity.
Qed.

Lemma catalog_mode_first_init :
  __init__ (rows [(0%Z, 1.0); (1%Z, 1.0); (2%Z, 1.5)]%Q) (Fin 0.5) =
  Ok catalog_mode_first.
Proof. vm_compute. reflexivity. Qed.

(** On the magnitudes 1.0, 1.0 and 1.5: the derivative is NaN at 1.0 and 1
    at 1.5, and the magnitude returned is 1.5. *)
Lemma derivative_is_count_after_first_witness :
  groupby_Magnitude_count (catalog catalog_mode_first) =
    [(Fin 1.0, 2%nat); (Fin 1.5, 1%nat)]%Q /\
  distribution_derivative catalog_mode_first =
    [(Fin 1.0, NaN); (Fin 1.5, of_nat 1)]%Q /\
  maximum_curvature catalog_mode_first = Ok (Fin 1.5).
Proof.
  assert (Hg : groupby_Magnitude_count (catalog catalog_mode_first) =
               [(Fin 1.0, 2%nat); (Fin 1.5, 1%nat)]%Q) by reflexivity.
  destruct (derivative_is_count_after_first catalog_mode_first Hg) as [Hd Hm].
  split; [exact Hg|]. split; [exact Hd|].
  rewrite Hm; [reflexivity | discriminate].
Defined.

(** C2, as stated, fails.  In a catalog whose smallest magnitude is the most
    frequent one, the derivative differs from the per-magnitude counts at
    the first entry, and the two argmaxes differ: the counts peak at 1.0,
    the derivative at 1.5. *)
Lemma derivative_differs_from_counts :
  __init__ (rows [(0%Z, 1.0); (1%Z, 1.0); (2%Z, 1.5)]%Q) (Fin 0.5) =
    Ok catalog_mode_first /\
  as_float (groupby_Magnitude_count (catalog catalog_mode_first)) =
    [(Fin 1.0, of_nat 2); (Fin 1.5, of_nat 1)]%Q /\
  distribution_derivative catalog_mode_first =
    [(Fin 1.0, NaN); (Fin 1.5, of_nat 1)]%Q /\
  most_common_magnitude catalog_mode_first = Ok (Fin 1.0) /\
  maximum_curvature catalog_mode_first = Ok (Fin 1.5) /\
  most_common_magnitude catalog_mode_first <>
    maximum_curvature catalog_mode_first.
Proof.
  split; [exact catalog_mode_first_init|].
  split_all; try (vm_compute; reflexivity). discriminate.
Qed.

(** ** maximum_curvature on one distinct magnitude *)

(** C3 fails on the program.  With a single distinct magnitude the
    derivative series is the single entry NaN, and [maximum_curvature]
    returns NaN where the claim expects the magnitude 2.0 (which the counts
    themselves would give). *)
Theorem maximum_curvature_single_value :
  __init__ (rows [(0%Z, 2.0); (1%Z, 2.0); (2%Z, 2.0)]%Q) (Fin 0.5) =
    Ok catalog_single_value /\
  distribution_derivative catalog_single_value = [(Fin 2.0, NaN)]%Q /\
  maximum_curvature catalog_single_value = Ok NaN /\
  most_common_magnitude catalog_single_value = Ok (Fin 2.0).
Proof. split_all; vm_compute; reflexivity. Qed.


(** ** maximum_curvature on two or more distinct magnitudes *)






(** ** Positions selected by a mask *)

Lemma where_from_cons (s j : nat) (b : bool) (t : list bool) :
  In j (where_from s (b :: t)) <->
  (b = true /\ j = s) \/ In j (where_from (S s) t).
Proof.
  simpl. destruct b; simpl; split; intros H.
  - destruct H as [H|H]; auto.
  - destruct H as [[_ H]|H]; auto.
  - auto.
  - destruct H as [[H _]|H]; [discriminate | exact H].
Qed.

Lemma where_from_In (s j : nat) (mask : list bool) :
  In j (where_from s mask) <->
  (s <= j)%nat /\ nth_error mask (j - s) = Some true.
Proof.
  revert s. induction mask as [|b t IH]; intros s.
  - simpl. split; [tauto|]. intros [_ H]. destruct (j - s)%nat; discriminate.
  - rewrite where_from_cons, IH.
    destruct (lt_eq_lt_dec j s) as [[Hlt|Heq]|Hgt].
    + split; [intros [[_ H]|[H _]]; lia | intros [H _]; lia].
    + subst j. rewrite Nat.sub_diag. simpl. split.
      * intros [[-> _]|[H _]]; [auto | lia].
      * intros [_ H]. injection H as ->. auto.
    + replace (j - s)%nat with (S (j - S s)) by lia. simpl. split.
      * intros [[_ H]|[_ H]]; [lia | split; [lia | exact H]].
      * intros [_ H]. right. split; [lia | exact H].
Qed.

Lemma np_where_In (j : nat) (mask : list bool) :
  In j (np_where mask) <-> nth_error mask j = Some true.
Proof.
  unfold np_where. rewrite where_from_In, Nat.sub_0_r.
  split; [tauto | intros H; split; [lia | exact H]].
Qed.

Lemma where_from_sorted (s : nat) (mask : list bool) :
  StronglySorted lt (where_from s mask).
Proof.
  revert s. induction mask as [|b t IH]; intros s; simpl; [constructor|].
  destruct b; auto. constructor; auto.
  apply Forall_forall. intros j Hj. apply where_from_In in Hj. lia.
Qed.

(** The head of [np.where(mask)[0]] is the first position that holds. *)
Lemma np_where_first (mask : list bool) (i : nat) (rest : list nat) :
  np_where mask = i :: rest ->
  nth_error mask i = Some true /\
  forall j, (j < i)%nat -> nth_error mask j <> Some true.
Proof.
  intros H. split.
  - apply np_where_In. rewrite H. simpl. auto.
  - intros j Hj Hm. apply np_where_In in Hm.
    pose proof (where_from_sorted 0 mask) as Hs. fold (np_where mask) in Hs.
    rewrite H in Hs, Hm. inversion Hs as [|? ? _ Hall]; subst.
    destruct Hm as [->|Hm]; [lia|].
    rewrite Forall_forall in Hall. specialize (Hall j Hm). lia.
Qed.

Lemma np_where_nil (mask : list bool) :
  np_where mask = [] <-> forall j, nth_error mask j <> Some true.
Proof.
  split.
  - intros H j Hj. apply np_where_In in Hj. rewrite H in Hj. contradiction.
  - intros H. destruct (np_where mask) as [|i rest] eqn:E; [reflexivity|].
    exfalso. apply (H i). apply np_where_In. rewrite E. simpl. auto.
Qed.

Lemma np_where_bound (mask : list bool) (j : nat) :
  In j (np_where mask) -> (j < length mask)%nat.
Proof.
  intros H. apply np_where_In in H. apply nth_error_Some. congruence.
Qed.

(** ** Running a fallible function over a list *)

Lemma mapM_Ok {A B : Type} (f : A -> result B) (l : list A) :
  (forall a, In a l -> exists b, f a = Ok b) ->
  exists out,
    mapM f l = Ok out /\
    length out = length l /\
    forall i a, nth_error l i = Some a ->
                exists b, f a = Ok b /\ nth_error out i = Some b.
Proof.
  induction l as [|a l IH]; intros H.
  - exists []. simpl. repeat split; auto. intros [|i] a; discriminate.
  - destruct (H a (or_introl eq_refl)) as [b Hb].
    destruct (IH (fun x Hx => H x (or_intror Hx))) as [out [Hout [Hlen Hnth]]].
    exists (b :: out). simpl. rewrite Hb. cbn [bind]. rewrite Hout. cbn [bind].
    repeat split; auto.
    intros [|i] x Hx; simpl in *.
    + injection Hx as <-. eauto.
    + auto.
Qed.

Lemma getitem_Ok {A : Type} (l : list A) (i : nat) :
  (i < length l)%nat -> exists a, getitem l i = Ok a /\ nth_error l i = Some a.
Proof.
  intros H. unfold getitem.
  destruct (nth_error l i) as [a|] eqn:E; eauto.
  apply nth_error_None in E. lia.
Qed.

Lemma getitem_Some {A : Type} (l : list A) (i : nat) (a : A) :
  getitem l i = Ok a <-> nth_error l i = Some a.
Proof.
  unfold getitem. destruct (nth_error l i); split; intros H;
    try discriminate; injection H as ->; reflexivity.
Qed.

(** ** Every constructed catalog *)

Lemma init_Ok_inv (df : DataFrame) (dm : float64) (self : Catalog) :
  __init__ df dm = Ok self ->
  groupby_Magnitude_count (catalog self) <> [] /\
  length (cumulative_magnitude_frequency self) =
    length (magnitudes_in_catalog self).
Proof.
  unfold __init__. intros H.
  destruct (index_first _) as [lo|] eqn:Hlo; [|discriminate].
  destruct (index_last _) as [hi|]; [|discriminate].
  cbn [bind] in H.
  destruct (np_arange _ _ _) as [grid|]; [|discriminate].
  cbn [bind] in H. injection H as <-. simpl. split.
  - intros Hnil. rewrite Hnil in Hlo. discriminate.
  - apply length_map.
Qed.

Lemma maximum_curvature_Ok (self : Catalog) :
  groupby_Magnitude_count (catalog self) <> [] ->
  exists seed, maximum_curvature self = Ok seed.
Proof.
  intros Hne.
  destruct (groupby_Magnitude_count (catalog self)) as [|[k c] t] eqn:Hg;
    [congruence|].
  rewrite (maximum_curvature_cons self Hg).
  apply idxmax_nonempty. discriminate.
Qed.

(** ** The sweep *)

Lemma tested_magnitudes_nth (seed : float64) (i : nat) (t : float64) :
  nth_error (tested_magnitudes seed) i = Some t <->
  (i < 15)%nat /\
  t = fadd (fsub seed (Fin 0.4)) (fdiv (fsub (of_nat i) (Fin 1)) (Fin 10)).
Proof.
  exact (nth_error_map_seq
           (fun i => fadd (fsub seed (Fin 0.4))
                       (fdiv (fsub (of_nat i) (Fin 1)) (Fin 10))) 15 i t).
Qed.

Lemma tested_magnitudes_length (seed : float64) :
  length (tested_magnitudes seed) = 15%nat.
Proof. reflexivity. Qed.

Lemma tested_offset (i : nat) :
  fdiv (fsub (of_nat i) (Fin 1)) (Fin 10) =
  Fin ((inject_Z (Z.of_nat i) - 1) / 10).
Proof. reflexivity. Qed.

(** From a seed that is NaN every tested magnitude is NaN. *)
Lemma tested_magnitudes_nan (i : nat) (t : float64) :
  nth_error (tested_magnitudes NaN) i = Some t -> t = NaN.
Proof. intros H. apply tested_magnitudes_nth in H. now destruct H as [_ ->]. Qed.

(** From any other seed the tested magnitudes are in increasing order. *)
Lemma tested_magnitudes_mono (seed : float64) (i j : nat) (t t' : float64) :
  isnan seed = false -> (i <= j)%nat ->
  nth_error (tested_magnitudes seed) i = Some t ->
  nth_error (tested_magnitudes seed) j = Some t' ->
  fle t t'.
Proof.
  intros Hs Hij Hi Hj. apply tested_magnitudes_nth in Hi, Hj.
  destruct Hi as [_ ->]. destruct Hj as [_ ->]. rewrite !tested_offset.
  destruct seed as [s| | |]; try discriminate; try reflexivity.
  apply fle_Fin. apply Qplus_le_r. apply Qmult_le_r; [reflexivity|].
  apply Qplus_le_l. rewrite <- Zle_Qle. lia.
Qed.

(** A residual within 5 is within 10. *)
Lemma fleb_5_10 (r : float64) : fleb r (Fin 5) = true -> fleb r (Fin 10) = true.
Proof.
  destruct r as [q| | |]; try discriminate; try reflexivity.
  intros H. apply fle_Fin in H. apply fle_Fin. lra.
Qed.

Lemma mask_low (residuals : list float64) (thr : float64) (i : nat) :
  nth_error (map (fun r => fleb r thr) residuals) i = Some true <->
  low residuals thr i.
Proof.
  rewrite nth_error_map. unfold low.
  destruct (nth_error residuals i) as [r|]; simpl; split.
  - intros H. injection H as H. eauto.
  - intros [r' [H1 H2]]. injection H1 as ->. now rewrite H2.
  - discriminate.
  - intros [r' [H1 _]]. discriminate.
Qed.


Lemma index_of_first_low_residual_first (residuals : list float64) (thr : float64)
    (i : nat) (rest : list nat) :
  index_of_first_low_residual residuals thr = i :: rest -> first_low residuals thr i.
Proof.
  intros H. apply np_where_first in H. destruct H as [H1 H2]. split.
  - now apply mask_low.
  - intros j Hj Hlow. apply (H2 j Hj). now apply mask_low.
Qed.

Lemma index_of_first_low_residual_nil (residuals : list float64) (thr : float64) :
  index_of_first_low_residual residuals thr = [] -> none_low residuals thr.
Proof.
  intros H j Hlow. apply mask_low in Hlow.
  unfold index_of_first_low_residual in H. rewrite np_where_nil in H.
  now apply (H j).
Qed.

Lemma low_bound (residuals : list float64) (thr : float64) (i : nat) :
  low residuals thr i -> (i < length residuals)%nat.
Proof. intros [r [H _]]. apply nth_error_Some. congruence. Qed.

Section SweepProperties.

Variable np_exp : float64 -> float64.
Variable np_log10 : float64 -> float64.
Variable pow10 : float64 -> float64.

Lemma residual_Ok (self : Catalog) (t : float64) :
  length (cumulative_magnitude_frequency self) =
    length (magnitudes_in_catalog self) ->
  exists r, residual np_exp np_log10 pow10 self t = Ok r.
Proof.
  intros Hlen. unfold residual. cbv zeta.
  set (idx := np_where (map (fun g => fgeb g t) (magnitudes_in_catalog self))).
  assert (Hidx : forall j, In j idx ->
                           (j < length (magnitudes_in_catalog self))%nat).
  { intros j Hj. apply np_where_bound in Hj. now rewrite length_map in Hj. }
  match goal with
  | |- context [mapM (getitem ?m) idx] =>
      lazymatch m with
      | cumulative_magnitude_frequency self => fail
      | _ => set (model := m)
      end
  end.
  destruct (@mapM_Ok _ _ (getitem (cumulative_magnitude_frequency self)) idx)
    as [obs [Hobs _]].
  { intros j Hj.
    destruct (@getitem_Ok _ (cumulative_magnitude_frequency self) j)
      as [a [Ha _]]; [rewrite Hlen; auto | eauto]. }
  destruct (@mapM_Ok _ _ (getitem model) idx) as [mdl [Hmdl _]].
  { intros j Hj.
    destruct (@getitem_Ok _ model j) as [a [Ha _]]; [|eauto].
    unfold model. rewrite length_map. auto. }
  rewrite Hobs. cbn [bind]. rewrite Hmdl. cbn [bind]. eauto.
Qed.

(** When no grid value reaches the cutoff, both sums are empty and the
    residual is 0/0, which is NaN. *)
Lemma residual_empty_index (self : Catalog) (t : float64) :
  np_where (map (fun g => fgeb g t) (magnitudes_in_catalog self)) = [] ->
  residual np_exp np_log10 pow10 self t = Ok NaN.
Proof. intros H. unfold residual. cbv zeta. rewrite H. reflexivity. Qed.

Lemma residual_nan_cutoff (self : Catalog) :
  residual np_exp np_log10 pow10 self NaN = Ok NaN.
Proof.
  apply residual_empty_index. apply np_where_nil. intros j.
  rewrite nth_error_map.
  destruct (nth_error (magnitudes_in_catalog self) j) as [g|];
    [|discriminate].
  simpl. destruct g; discriminate.
Qed.

Lemma residuals_Ok (self : Catalog) (seed : float64) :
  length (cumulative_magnitude_frequency self) =
    length (magnitudes_in_catalog self) ->
  exists res,
    residuals np_exp np_log10 pow10 self (tested_magnitudes seed) = Ok res /\
    length res = 15%nat /\
    forall i t,
      nth_error (tested_magnitudes seed) i = Some t ->
      exists r, residual np_exp np_log10 pow10 self t = Ok r /\
                nth_error res i = Some r.
Proof.
  intros Hlen. unfold residuals.
  destruct (@mapM_Ok _ _
              (fun i => t <- getitem (tested_magnitudes seed) i ;;
                        residual np_exp np_log10 pow10 self t) (seq 0 15))
    as [res [Hres [Hl Hnth]]].
  { intros i Hi. apply in_seq in Hi.
    destruct (@getitem_Ok _ (tested_magnitudes seed) i) as [t [Ht _]];
      [rewrite tested_magnitudes_length; lia|].
    rewrite Ht. cbn [bind]. now apply residual_Ok. }
  exists res. split; [exact Hres|]. split; [exact Hl|].
  intros i t Ht.
  assert (Hi : (i < 15)%nat) by (apply tested_magnitudes_nth in Ht; tauto).
  destruct (Hnth i i) as [r [Hr Hn]].
  { rewrite nth_error_seq. destruct (Nat.ltb_spec i 15); [reflexivity | lia]. }
  apply getitem_Some in Ht. rewrite Ht in Hr. cbn [bind] in Hr. eauto.
Qed.

End SweepProperties.

(** ** The choice of the completeness magnitude *)

Lemma select_completeness_spec (seed : float64) (tested res : list float64) :
  length tested = length res ->
  exists v,
    select_completeness seed tested res = Ok v /\
    ((exists i, first_low res (Fin 5) i /\ nth_error tested i = Some v) \/
     (none_low res (Fin 5) /\
      exists i, first_low res (Fin 10) i /\ nth_error tested i = Some v) \/
     (none_low res (Fin 5) /\ none_low res (Fin 10) /\ v = seed)).
Proof.
  intros Hlen. unfold select_completeness.
  destruct (index_of_first_low_residual res (Fin 5)) as [|i5 rest5] eqn:E5.
  - apply index_of_first_low_residual_nil in E5.
    destruct (index_of_first_low_residual res (Fin 10)) as [|i10 rest10] eqn:E10.
    + apply index_of_first_low_residual_nil in E10. exists seed.
      split; [reflexivity|]. right. right. auto.
    + apply index_of_first_low_residual_first in E10.
      destruct (@getitem_Ok _ tested i10) as [v [Hv Hn]].
      { rewrite Hlen. apply (low_bound (proj1 E10)). }
      exists v. split; [exact Hv|]. right. left. eauto.
  - apply index_of_first_low_residual_first in E5.
    destruct (@getitem_Ok _ tested i5) as [v [Hv Hn]].
    { rewrite Hlen. apply (low_bound (proj1 E5)). }
    exists v. split; [exact Hv|]. left. eauto.
Qed.



Section GoodnessOfFitClaims.

Variable np_exp : float64 -> float64.
Variable np_log10 : float64 -> float64.
Variable pow10 : float64 -> float64.

(** When the seed is NaN no candidate has a residual within a threshold. *)
Lemma nan_seed_none_low (self : Catalog) (res : list float64)
    (thr : float64) :
  (forall i t,
      nth_error (tested_magnitudes NaN) i = Some t ->
      exists r, residual np_exp np_log10 pow10 self t = Ok r /\
                nth_error res i = Some r) ->
  length res = 15%nat ->
  none_low res thr.
Proof.
  intros Hres Hlen j [r [Hr Hlow]].
  assert (Hj : (j < 15)%nat)
    by (rewrite <- Hlen; apply nth_error_Some; congruence).
  destruct (@getitem_Ok _ (tested_magnitudes NaN) j) as [t [_ Ht]];
    [rewrite tested_magnitudes_length; exact Hj|].
  destruct (Hres j t Ht) as [r' [Hr' Hn]].
  apply tested_magnitudes_nan in Ht. subst t.
  rewrite residual_nan_cutoff in Hr'. injection Hr' as <-.
  rewrite Hn in Hr. injection Hr as <-. discriminate.
Qed.

(** The candidate at the first low position is the smallest magnitude
    among the candidates with a low residual. *)
Lemma first_low_lowest_magnitude (self : Catalog) (seed : float64)
    (res : list float64) (thr : float64) (i j : nat) (v tj : float64) :
  (forall i t,
      nth_error (tested_magnitudes seed) i = Some t ->
      exists r, residual np_exp np_log10 pow10 self t = Ok r /\
                nth_error res i = Some r) ->
  length res = 15%nat ->
  first_low res thr i -> nth_error (tested_magnitudes seed) i = Some v ->
  low res thr j -> nth_error (tested_magnitudes seed) j = Some tj ->
  (i <= j)%nat /\ fle v tj.
Proof.
  intros Hres Hlen [Hi Hmin] Hv Hj Htj.
  assert (Hij : (i <= j)%nat).
  { destruct (Nat.le_gt_cases i j) as [H|H]; [exact H|].
    exfalso. exact (Hmin j H Hj). }
  split; [exact Hij|].
  destruct (isnan seed) eqn:Hnan.
  - destruct seed; try discriminate.
    exfalso. exact (@nan_seed_none_low self res thr Hres Hlen j Hj).
  - exact (@tested_magnitudes_mono seed i j v tj Hnan Hij Hv Htj).
Qed.

(** On a constructed catalog nothing in [goodness_of_fit_test] raises. *)
Lemma goodness_of_fit_runs
    (df : DataFrame) (dm : float64) (self : Catalog) :
  __init__ df dm = Ok self ->
  exists seed res v,
    maximum_curvature self = Ok seed /\
    residuals np_exp np_log10 pow10 self (tested_magnitudes seed) = Ok res /\
    length res = 15%nat /\
    (forall i t,
        nth_error (tested_magnitudes seed) i = Some t ->
        exists r, residual np_exp np_log10 pow10 self t = Ok r /\
                  nth_error res i = Some r) /\
    select_completeness seed (tested_magnitudes seed) res = Ok v /\
    goodness_of_fit_test np_exp np_log10 pow10 self = Ok v.
Proof.
  intros Hinit. apply init_Ok_inv in Hinit. destruct Hinit as [Hne Hlen].
  destruct (@maximum_curvature_Ok self Hne) as [seed Hseed].
  destruct (@residuals_Ok np_exp np_log10 pow10 self seed Hlen)
    as [res [Hres [Hl Htie]]].
  destruct (@select_completeness_spec seed (tested_magnitudes seed) res)
    as [v [Hsel _]].
  { now rewrite Hl, tested_magnitudes_length. }
  exists seed, res, v.
  split; [exact Hseed|]. split; [exact Hres|]. split; [exact Hl|].
  split; [exact Htie|]. split; [exact Hsel|].
  unfold goodness_of_fit_test. rewrite Hseed. cbn [bind].
  rewrite Hres. cbn [bind]. exact Hsel.
Qed.

(** C1. On every successfully constructed catalog
    [goodness_of_fit_test] returns: the candidate at the first position
    whose residual is within 5, which is also the smallest candidate
    whose residual is within 5; if there is none, the candidate at the
    first position whose residual is within 10, likewise the smallest
    such; if there is none either, the maximum-curvature estimate. *)
Theorem goodness_of_fit_selection
    (df : DataFrame) (dm : float64) (self : Catalog) :
  __init__ df dm = Ok self ->
  exists seed res v,
    maximum_curvature self = Ok seed /\
    residuals np_exp np_log10 pow10 self (tested_magnitudes seed) = Ok res /\
    length res = 15%nat /\
    (forall i t,
        nth_error (tested_magnitudes seed) i = Some t ->
        exists r, residual np_exp np_log10 pow10 self t = Ok r /\
                  nth_error res i = Some r) /\
    goodness_of_fit_test np_exp np_log10 pow10 self = Ok v /\
    ((exists i,
         first_low res (Fin 5) i /\
         nth_error (tested_magnitudes seed) i = Some v /\
         forall j tj, low res (Fin 5) j ->
                      nth_error (tested_magnitudes seed) j = Some tj ->
                      fle v tj) \/
     (none_low res (Fin 5) /\
      exists i,
        first_low res (Fin 10) i /\
        nth_error (tested_magnitudes seed) i = Some v /\
        forall j tj, low res (Fin 10) j ->
                     nth_error (tested_magnitudes seed) j = Some tj ->
                     fle v tj) \/
     (none_low res (Fin 5) /\ none_low res (Fin 10) /\ v = seed)).
Proof.
  intros Hinit.
  destruct (@goodness_of_fit_runs df dm self Hinit)
    as [seed [res [v [Hseed [Hres [Hl [Htie [Hsel Hgof]]]]]]]].
  destruct (@select_completeness_spec seed (tested_magnitudes seed) res)
    as [v' [Hsel' Hcases]].
  { now rewrite Hl, tested_magnitudes_length. }
  rewrite Hsel in Hsel'. injection Hsel' as <-.
  exists seed, res, v.
  split; [exact Hseed|]. split; [exact Hres|]. split; [exact Hl|].
  split; [exact Htie|]. split; [exact Hgof|].
  destruct Hcases as [[i [Hf Hv]]|[[Hn [i [Hf Hv]]]|H]].
  - left. exists i. split; [exact Hf|]. split; [exact Hv|].
    intros j tj Hj Htj.
    apply (@first_low_lowest_magnitude self seed res _ i j v tj
             Htie Hl Hf Hv Hj Htj).
  - right. left. split; [exact Hn|].
    exists i. split; [exact Hf|]. split; [exact Hv|].
    intros j tj Hj Htj.
    apply (@first_low_lowest_magnitude self seed res _ i j v tj
             Htie Hl Hf Hv Hj Htj).
  - right. right. exact H.
Qed.

(** C6, as amended. Whenever some candidate has a residual within 5, the
    search at threshold 10 on the same residuals also succeeds, at a
    position that is at most the position found at threshold 5; hence the
    magnitude it selects is at most the magnitude selected at
    threshold 5. *)
Theorem looser_threshold_selects_no_higher
    (df : DataFrame) (dm : float64) (self : Catalog)
    (seed : float64) (res : list float64) (i5 : nat) (rest5 : list nat) :
  __init__ df dm = Ok self ->
  maximum_curvature self = Ok seed ->
  residuals np_exp np_log10 pow10 self (tested_magnitudes seed) = Ok res ->
  index_of_first_low_residual res (Fin 5) = i5 :: rest5 ->
  exists i10 rest10 m5 m10,
    index_of_first_low_residual res (Fin 10) = i10 :: rest10 /\
    (i10 <= i5)%nat /\
    nth_error (tested_magnitudes seed) i5 = Some m5 /\
    nth_error (tested_magnitudes seed) i10 = Some m10 /\
    fle m10 m5.
Proof.
  intros Hinit Hseed Hres H5.
  apply init_Ok_inv in Hinit. destruct Hinit as [_ Hlen].
  destruct (@residuals_Ok np_exp np_log10 pow10 self seed Hlen)
    as [res' [Hres' [Hl Htie]]].
  rewrite Hres in Hres'. injection Hres' as <-.
  apply index_of_first_low_residual_first in H5. destruct H5 as [Hlow5 _].
  assert (Hlow10 : low res (Fin 10) i5).
  { destruct Hlow5 as [r [Hr Hle]]. exists r. split; [exact Hr|].
    now apply fleb_5_10. }
  destruct (index_of_first_low_residual res (Fin 10)) as [|i10 rest10] eqn:E10.
  { apply index_of_first_low_residual_nil in E10. exfalso. exact (E10 i5 Hlow10). }
  apply index_of_first_low_residual_first in E10.
  assert (H5b : (i5 < 15)%nat) by (rewrite <- Hl; apply (low_bound Hlow10)).
  assert (H10b : (i10 < 15)%nat)
    by (rewrite <- Hl; apply (low_bound (proj1 E10))).
  destruct (@getitem_Ok _ (tested_magnitudes seed) i5) as [m5 [_ Hm5]];
    [rewrite tested_magnitudes_length; exact H5b|].
  destruct (@getitem_Ok _ (tested_magnitudes seed) i10) as [m10 [_ Hm10]];
    [rewrite tested_magnitudes_length; exact H10b|].
  exists i10, rest10, m5, m10. split; [reflexivity|].
  destruct (@first_low_lowest_magnitude self seed res _ i10 i5 m10 m5
              Htie Hl E10 Hm10 Hlow10 Hm5) as [Hle Hfle].
  auto.
Qed.



End GoodnessOfFitClaims.

(** ** The sweep on a catalog of two events *)

Lemma catalog_two_events_init :
  __init__ (rows [(0%Z, 1.0); (1%Z, 1.5)]%Q) (Fin 0.5) = Ok catalog_two_events.
Proof. vm_compute. reflexivity. Qed.

Lemma catalog_two_events_seed :
  maximum_curvature catalog_two_events = Ok (Fin 1.5).
Proof. vm_compute. reflexivity. Qed.

Lemma catalog_two_events_residuals :
  residuals Numeric.np_exp Numeric.np_log10 Numeric.pow10
    catalog_two_events (tested_magnitudes (Fin 1.5)) =
  Ok residuals_two_events.
Proof. vm_compute. reflexivity. Qed.

Lemma residuals_two_events_shape :
  map (fun r => (fleb r (Fin 5), fleb r (Fin 10), isnan r))
    residuals_two_events =
  [(false, true, false); (false, false, false); (false, false, false);
   (false, false, false); (false, false, false); (true, true, false);
   (false, false, true); (false, false, true); (false, false, true);
   (false, false, true); (false, false, true); (false, false, true);
   (false, false, true); (false, false, true); (false, false, true)].
Proof. vm_compute. reflexivity. Qed.

(** On the catalog of two events the value returned is the candidate at
    position 5, the first whose residual is within 5. *)
Lemma goodness_of_fit_selection_witness :
  __init__ (rows [(0%Z, 1.0); (1%Z, 1.5)]%Q) (Fin 0.5) = Ok catalog_two_events /\
  exists v,
    goodness_of_fit_test Numeric.np_exp Numeric.np_log10 Numeric.pow10
      catalog_two_events = Ok v /\
    nth_error (tested_magnitudes (Fin 1.5)) 5 = Some v /\
    first_low residuals_two_events (Fin 5) 5.
Proof.
  split; [exact catalog_two_events_init|].
  destruct (@goodness_of_fit_selection
              Numeric.np_exp Numeric.np_log10 Numeric.pow10
              (rows [(0%Z, 1.0); (1%Z, 1.5)]%Q) (Fin 0.5) catalog_two_events
              ltac:(vm_compute; reflexivity))
    as [seed [res [v [Hseed [Hres [_ [_ [Hgof Hcases]]]]]]]].
  rewrite catalog_two_events_seed in Hseed. injection Hseed as <-.
  rewrite catalog_two_events_residuals in Hres. injection Hres as <-.
  exists v. split; [exact Hgof|].
  destruct Hcases as [[i [Hf [Hv _]]]|[[Hn _]|[Hn _]]].
  - assert (Hi : i = 5%nat).
    { destruct Hf as [[r [Hr Hlow]] Hmin].
      destruct (Nat.lt_trichotomy i 5) as [H|[H|H]]; [|exact H|].
      - exfalso.
        do 5 (destruct i as [|i];
              [vm_compute in Hr; injection Hr as <-; discriminate|]).
        lia.
      - exfalso. apply (Hmin 5%nat H). eexists. split; reflexivity. }
    subst i. split; [exact Hv|]. exact Hf.
  - exfalso. apply (Hn 5%nat). eexists. split; reflexivity.
  - exfalso. apply (Hn 5%nat). eexists. split; reflexivity.
Defined.

(** On the catalog of two events the search at threshold 5 finds
    position 5 and the search at threshold 10 a position at most 5. *)
Lemma looser_threshold_selects_no_higher_witness :
  index_of_first_low_residual residuals_two_events (Fin 5) = [5]%nat /\
  exists i10 rest10 m5 m10,
    index_of_first_low_residual residuals_two_events (Fin 10) = i10 :: rest10 /\
    (i10 <= 5)%nat /\
    nth_error (tested_magnitudes (Fin 1.5)) 5 = Some m5 /\
    nth_error (tested_magnitudes (Fin 1.5)) i10 = Some m10 /\
    fle m10 m5.
Proof.
  split; [vm_compute; reflexivity|].
  apply (@looser_threshold_selects_no_higher
           Numeric.np_exp Numeric.np_log10 Numeric.pow10
           (rows [(0%Z, 1.0); (1%Z, 1.5)]%Q) (Fin 0.5) catalog_two_events
           (Fin 1.5) residuals_two_events 5%nat []).
  - vm_compute. reflexivity.
  - vm_compute. reflexivity.
  - vm_compute. reflexivity.
  - vm_compute. reflexivity.
Defined.

(** C6, as stated, fails.  On the catalog of two events the residual of the
    cutoff 1.0 (position 0) is about 8.8 and that of the cutoff 1.5
    (position 5) is 0.  The search at threshold 5 selects 1.5, the search
    at threshold 10 on the same residuals selects 1.0, and 1.5 is not at
    most 1.0. *)
Lemma threshold_5_selects_higher_than_10 :
  __init__ (rows [(0%Z, 1.0); (1%Z, 1.5)]%Q) (Fin 0.5) = Ok catalog_two_events /\
  maximum_curvature catalog_two_events = Ok (Fin 1.5) /\
  residuals Numeric.np_exp Numeric.np_log10 Numeric.pow10
    catalog_two_events (tested_magnitudes (Fin 1.5)) = Ok residuals_two_events /\
  index_of_first_low_residual residuals_two_events (Fin 5) = [5]%nat /\
  index_of_first_low_residual residuals_two_events (Fin 10) = [0; 5]%nat /\
  nth_error (tested_magnitudes (Fin 1.5)) 5 = Some (Fin 1.500) /\
  nth_error (tested_magnitudes (Fin 1.5)) 0 = Some (Fin 1.000) /\
  ~ fle (Fin 1.500) (Fin 1.000).
Proof.
  split; [exact catalog_two_events_init|].
  split; [exact catalog_two_events_seed|].
  split; [exact catalog_two_events_residuals|].
  split_all; try (vm_compute; reflexivity).
  vm_compute. discriminate.
Qed.



(** * Further properties of the constructor *)

(** ** A zero bin width *)

Lemma groupby_all_nan (df : DataFrame) :
  (forall e, In e df -> Magnitude e = NaN) -> groupby_Magnitude_count df = [].
Proof.
  induction df as [|e df IH]; intros H; [reflexivity|].
  simpl. rewrite (H e (or_introl eq_refl)). simpl.
  apply IH. intros e' He'. apply H. now right.
Qed.

Lemma round_to_bin_zero (m : Q) (t : Z) :
  Magnitude (round_to_bin (Fin 0) {| DateTime := t; Magnitude := Fin m |}) = NaN.
Proof.
  unfold round_to_bin. cbn [Magnitude fdiv].
  change (Qeq_bool 0 0) with true. cbv iota.
  destruct (m ?= 0)%Q; reflexivity.
Qed.

(** X1. With a bin width of zero the division turns every magnitude into
    an infinity or NaN and the multiplication by zero into NaN, no group is
    left, and the constructor raises IndexError on every catalog. *)
Theorem init_zero_bin_width (l : list (Z * Q)) :
  __init__ (rows l) (Fin 0) = Err "IndexError".
Proof.
  unfold __init__.
  rewrite groupby_all_nan; [reflexivity|].
  intros e He. apply in_map_iff in He. destruct He as [e0 [<- He0]].
  unfold rows in He0. apply in_map_iff in He0. destruct He0 as [r [<- _]].
  apply round_to_bin_zero.
Qed.

(** ** Rounding *)







(** ** Bounds on a survival count *)



(** ** The per-magnitude counts *)

Lemma feq_refl (x : float64) : isnan x = false -> feq x x.
Proof.
  destruct x as [q| | |]; try discriminate; intros _; unfold feq; simpl;
    try reflexivity.
  f_equal. apply Qeq_alt. reflexivity.
Qed.

Lemma feq_sym (x y : float64) : feq x y -> feq y x.
Proof. intros H. apply fcompare_antisym in H. exact H. Qed.

Lemma feq_trans (x y z : float64) : feq x y -> feq y z -> feq x z.
Proof.
  unfold feq.
  destruct x as [a| | |], y as [b| | |], z as [c| | |]; simpl;
    try discriminate; try reflexivity.
  intros H1 H2. injection H1 as H1. injection H2 as H2.
  apply Qeq_alt in H1, H2. f_equal. apply Qeq_alt. now rewrite H1.
Qed.

Lemma flt_not_feq (x y : float64) : flt x y -> ~ feq x y.
Proof. unfold flt, feq. intros H1 H2. congruence. Qed.

Lemma same_magnitude_feq (k : float64) (e : Event) :
  same_magnitude k e = true <-> feq (Magnitude e) k.
Proof.
  unfold same_magnitude, feq.
  destruct (fcompare (Magnitude e) k) as [[| |]|]; split; intros H;
    congruence.
Qed.

Lemma insert_group_total (m : float64) (g : Series nat) :
  isnan m = false ->
  Forall (fun k => isnan k = false) (index g) ->
  total (insert_group m g) = S (total g).
Proof.
  intros Hm. induction g as [|[k c] t IH]; intros Hg; [reflexivity|].
  inversion Hg as [|? ? Hk Ht]; subst.
  destruct (fcompare_not_nan m k Hm Hk) as [cmp Hc].
  cbn [insert_group]. rewrite Hc. destruct cmp; cbn [total fold_right snd].
  - reflexivity.
  - reflexivity.
  - fold (total (insert_group m t)). fold (total t). rewrite (IH Ht). lia.
Qed.

Lemma groupby_total (df : DataFrame) :
  total (groupby_Magnitude_count df) =
  length (filter (fun e => negb (isnan (Magnitude e))) df).
Proof.
  induction df as [|e df IH]; [reflexivity|].
  cbn [groupby_Magnitude_count fold_right filter].
  fold (groupby_Magnitude_count df).
  destruct (isnan (Magnitude e)) eqn:He; cbn [negb]; [exact IH|].
  rewrite insert_group_total; auto using groupby_index_not_nan.
  cbn [length]. now rewrite IH.
Qed.

(** Where an entry of the groups comes from when one row is added. *)
Lemma insert_group_In (m k : float64) (c : nat) (g : Series nat) :
  isnan m = false ->
  Forall (fun k => isnan k = false) (index g) ->
  StronglySorted flt (index g) ->
  In (k, c) (insert_group m g) ->
  (feq m k /\
   ((c = 1%nat /\ forall k' c', In (k', c') g -> ~ feq m k') \/
    (exists c', c = S c' /\ In (k, c') g))) \/
  (~ feq m k /\ In (k, c) g).
Proof.
  intros Hm. induction g as [|[k0 c0] t IH]; intros Hnan Hs Hin.
  - destruct Hin as [Hin|[]]. injection Hin as <- <-.
    left. split; [now apply feq_refl|]. left. split; [reflexivity|].
    intros k' c' [].
  - inversion Hs as [|? ? Ht Hall]; subst. rewrite Forall_forall in Hall.
    inversion Hnan as [|? ? Hk0 Hnant]; subst.
    cbn [insert_group] in Hin.
    destruct (fcompare_not_nan m k0 Hm Hk0) as [cmp Hc]. rewrite Hc in Hin.
    destruct cmp.
    + (* the row joins the first group *)
      destruct Hin as [Hin|Hin].
      * injection Hin as <- <-. left. split; [exact Hc|].
        right. exists c0. split; [reflexivity | now left].
      * right. split; [|now right].
        apply flt_not_feq. apply (feq_flt_trans Hc). apply Hall.
        apply in_map_iff. exists (k, c). auto.
    + (* the row opens a group before all others *)
      destruct Hin as [Hin|Hin].
      * injection Hin as <- <-. left. split; [now apply feq_refl|].
        left. split; [reflexivity|].
        intros k' c' [Hk|Hk].
        -- injection Hk as <- <-. now apply flt_not_feq.
        -- apply flt_not_feq. apply (flt_trans Hc). apply Hall.
           apply in_map_iff. exists (k', c'). auto.
      * right. split; [|exact Hin].
        destruct Hin as [Hk|Hk].
        -- injection Hk as <- <-. now apply flt_not_feq.
        -- apply flt_not_feq. apply (flt_trans Hc). apply Hall.
           apply in_map_iff. exists (k, c). auto.
    + (* the row goes further down *)
      assert (Hne : ~ feq m k0) by (unfold feq; rewrite Hc; discriminate).
      destruct Hin as [Hin|Hin].
      * injection Hin as <- <-. right. split; [exact Hne | now left].
      * destruct (IH Hnant Ht Hin) as [[He [[-> Hnone]|[c' [-> Hc']]]]|[Hn Hi]].
        -- left. split; [exact He|]. left. split; [reflexivity|].
           intros k' c' [Hk|Hk]; [injection Hk as <- <-; exact Hne | eauto].
        -- left. split; [exact He|]. right. exists c'. split; [reflexivity|].
           now right.
        -- right. split; [exact Hn | now right].
Qed.

Lemma index_In_pair {V : Type} (s : Series V) (k : float64) :
  In k (index s) -> exists v, In (k, v) s.
Proof.
  unfold index. intros H. apply in_map_iff in H.
  destruct H as [[k' v] [<- H]]. eauto.
Qed.

(** X6. The per-magnitude counts that [maximum_curvature] differentiates
    are the true ones: the count under each label is the number of events
    of that rounded magnitude, it is at least 1, and the counts add up to
    the number of events whose magnitude is a number. *)
Theorem groupby_counts_events (df : DataFrame) :
  (forall k c,
      In (k, c) (groupby_Magnitude_count df) ->
      (1 <= c)%nat /\ c = length (filter (same_magnitude k) df)) /\
  total (groupby_Magnitude_count df) =
    length (filter (fun e => negb (isnan (Magnitude e))) df).
Proof.
  split; [|apply groupby_total].
  intros k c.
  revert k c. induction df as [|e df IH]; intros k c Hin; [contradiction|].
  cbn [groupby_Magnitude_count fold_right] in Hin.
  fold (groupby_Magnitude_count df) in Hin.
  cbn [filter].
  destruct (isnan (Magnitude e)) eqn:He.
  - assert (Hs : same_magnitude k e = false).
    { unfold same_magnitude. destruct (Magnitude e); try discriminate.
      reflexivity. }
    rewrite Hs. auto.
  - apply insert_group_In in Hin;
      auto using groupby_index_not_nan, groupby_sorted.
    destruct Hin as [[Heq [[-> Hnone]|[c' [-> Hc']]]]|[Hn Hi]].
    + apply same_magnitude_feq in Heq. rewrite Heq. cbn [length].
      split; [lia|]. f_equal.
      destruct (filter (same_magnitude k) df) as [|e' rest] eqn:Hf;
        [reflexivity|].
      exfalso.
      assert (He' : In e' (filter (same_magnitude k) df))
        by (rewrite Hf; now left).
      apply filter_In in He'. destruct He' as [Hin' Hsame].
      apply same_magnitude_feq in Hsame, Heq.
      assert (Hnan' : isnan (Magnitude e') = false).
      { destruct (Magnitude e'); try discriminate; reflexivity. }
      destruct (groupby_index_covers df e' Hin' Hnan') as [k'' [Hk'' Hfe]].
      destruct (index_In_pair _ _ Hk'') as [c'' Hc''].
      apply (Hnone k'' c'' Hc'').
      apply (feq_trans Heq). apply feq_trans with (Magnitude e'); auto.
      now apply feq_sym.
    + apply same_magnitude_feq in Heq. rewrite Heq. cbn [length].
      destruct (IH k c' Hc') as [H1 ->]. split; [lia | reflexivity].
    + assert (Hs : same_magnitude k e = false).
      { destruct (same_magnitude k e) eqn:E; [|reflexivity].
        apply same_magnitude_feq in E. contradiction. }
      rewrite Hs. auto.
Qed.

(** * Further properties of maximum_curvature *)

Lemma fgtb_of_nat (a b : nat) : fgtb (of_nat a) (of_nat b) = true <-> (b < a)%nat.
Proof.
  unfold of_nat. rewrite fgtb_Fin, <- Zlt_Qlt. lia.
Qed.

Lemma fgtb_of_nat_false (a b : nat) :
  fgtb (of_nat a) (of_nat b) = false <-> (a <= b)%nat.
Proof.
  destruct (fgtb (of_nat a) (of_nat b)) eqn:E.
  - apply fgtb_of_nat in E. split; [discriminate | lia].
  - split; [intros _|reflexivity].
    destruct (Nat.le_gt_cases a b) as [H|H]; [exact H|].
    apply fgtb_of_nat in H. congruence.
Qed.

Lemma idxmax_from_cons (kb : float64) (cb : nat) (k : float64) (c : nat)
    (t : Series nat) :
  idxmax_from (kb, of_nat cb) (as_float ((k, c) :: t)) =
  if (cb <? c)%nat then idxmax_from (k, of_nat c) (as_float t)
  else idxmax_from (kb, of_nat cb) (as_float t).
Proof.
  cbn [as_float map idxmax_from fst snd]. fold (as_float t).
  destruct (Nat.ltb_spec cb c) as [H|H].
  - apply fgtb_of_nat in H. now rewrite H.
  - apply fgtb_of_nat_false in H. now rewrite H.
Qed.

(** The label chosen is the first one that holds the largest count. *)
Lemma idxmax_from_first_max (s pre0 mid : Series nat) (kb : float64) (cb : nat) :
  (forall x, In x pre0 -> (snd x < cb)%nat) ->
  (forall x, In x mid -> (snd x <= cb)%nat) ->
  exists pre c post,
    pre0 ++ (kb, cb) :: mid ++ s =
      pre ++ (idxmax_from (kb, of_nat cb) (as_float s), c) :: post /\
    (forall x, In x pre -> (snd x < c)%nat) /\
    (forall x, In x post -> (snd x <= c)%nat).
Proof.
  revert pre0 mid kb cb. induction s as [|[k c] t IH];
    intros pre0 mid kb cb Hpre Hmid.
  - exists pre0, cb, mid. rewrite app_nil_r. auto.
  - rewrite idxmax_from_cons. destruct (Nat.ltb_spec cb c) as [H|H].
    + destruct (IH (pre0 ++ (kb, cb) :: mid) [] k c) as [pre [c' [post [E HH]]]].
      * intros x Hx. apply in_app_or in Hx. destruct Hx as [Hx|[<-|Hx]].
        -- specialize (Hpre x Hx). lia.
        -- simpl. lia.
        -- specialize (Hmid x Hx). lia.
      * intros x [].
      * exists pre, c', post. split; [|exact HH].
        rewrite <- E. rewrite <- app_assoc. reflexivity.
    + destruct (IH pre0 (mid ++ [(k, c)]) kb cb Hpre) as [pre [c' [post [E HH]]]].
      * intros x Hx. apply in_app_or in Hx. destruct Hx as [Hx|[<-|[]]].
        -- exact (Hmid x Hx).
        -- exact H.
      * exists pre, c', post. split; [|exact HH].
        rewrite <- E. rewrite <- app_assoc. reflexivity.
Qed.

Lemma sorted_after (R : float64 -> float64 -> Prop) (a c : list float64)
    (b : float64) :
  StronglySorted R (a ++ b :: c) -> Forall (R b) c.
Proof.
  induction a as [|x a IH]; simpl; intros H; inversion H; subst; auto.
Qed.

(** X7. When the catalog has two or more distinct magnitudes,
    [maximum_curvature] returns, among all of them but the smallest, the
    one with the most events, and the lowest such magnitude when several
    have the most. *)
Theorem maximum_curvature_is_argmax
    (self : Catalog) (k0 : float64) (c0 : nat) (rest : Series nat) :
  groupby_Magnitude_count (catalog self) = (k0, c0) :: rest ->
  rest <> [] ->
  exists v c,
    maximum_curvature self = Ok v /\
    In (v, c) rest /\
    forall k' c',
      In (k', c') rest ->
      (c' <= c)%nat /\ (c' = c -> v = k' \/ flt v k').
Proof.
  intros Hg Hne. destruct rest as [|[k1 c1] t]; [congruence|].
  pose proof (groupby_sorted (catalog self)) as Hs. rewrite Hg in Hs.
  cbn [index map fst] in Hs. inversion Hs as [|? ? Hs1 _]; subst.
  rewrite (maximum_curvature_cons self Hg). unfold idxmax.
  change (dropna ((k0, NaN) :: as_float ((k1, c1) :: t)))
    with (dropna (as_float ((k1, c1) :: t))).
  rewrite dropna_as_float. cbn [as_float map fst snd]. fold (as_float t).
  destruct (@idxmax_from_first_max t [] [] k1 c1) as [pre [c [post [E [Hpre Hpost]]]]];
    [intros x [] | intros x [] |].
  cbn [app] in E.
  set (v := idxmax_from (k1, of_nat c1) (as_float t)) in *.
  exists v, c. split; [reflexivity|]. split.
  - rewrite E. apply in_or_app. right. now left.
  - intros k' c' Hin. rewrite E in Hin. apply in_app_or in Hin.
    destruct Hin as [Hin|[Hin|Hin]].
    + specialize (Hpre _ Hin). simpl in Hpre. split; lia.
    + injection Hin as <- <-. split; auto.
    + specialize (Hpost _ Hin). simpl in Hpost. split; [exact Hpost|].
      intros _. right.
      assert (Hidx : k1 :: map fst t = map fst pre ++ v :: map fst post).
      { change (k1 :: map fst t) with (map fst ((k1, c1) :: t)).
        rewrite E, map_app. reflexivity. }
      rewrite Hidx in Hs1. apply sorted_after in Hs1.
      rewrite Forall_forall in Hs1. apply Hs1.
      apply in_map_iff. exists (k', c'). auto.
Qed.

Lemma maximum_curvature_is_argmax_witness :
  exists v c,
    maximum_curvature catalog_mode_first = Ok v /\
    In (v, c) [(Fin 1.5, 1%nat)]%Q /\
    forall k' c',
      In (k', c') [(Fin 1.5, 1%nat)]%Q ->
      (c' <= c)%nat /\ (c' = c -> v = k' \/ flt v k').
Proof.
  apply (@maximum_curvature_is_argmax catalog_mode_first
           (Fin 1.0) 2%nat [(Fin 1.5, 1%nat)]%Q).
  - reflexivity.
  - discriminate.
Defined.

(** A larger starting count either wins outright or changes nothing. *)
Lemma idxmax_from_dominated (t : Series nat) (ka kb : float64) (ca cb : nat) :
  (cb <= ca)%nat ->
  (idxmax_from (ka, of_nat ca) (as_float t) = ka /\
   forall x, In x t -> (snd x <= ca)%nat) \/
  (idxmax_from (ka, of_nat ca) (as_float t) =
     idxmax_from (kb, of_nat cb) (as_float t) /\
   exists x, In x t /\ (ca < snd x)%nat).
Proof.
  revert ka kb ca cb. induction t as [|[k c] t IH]; intros ka kb ca cb Hle.
  - left. split; [reflexivity | intros x []].
  - rewrite !idxmax_from_cons.
    destruct (Nat.ltb_spec ca c) as [Ha|Ha].
    + destruct (Nat.ltb_spec cb c) as [Hb|Hb]; [|lia].
      right. split; [reflexivity|]. exists (k, c). split; [now left | exact Ha].
    + destruct (Nat.ltb_spec cb c) as [Hb|Hb].
      * destruct (IH ka k ca c Ha) as [[E Hall]|[E [x [Hx Hlt]]]].
        -- left. split; [exact E|]. intros x [<-|Hx]; [exact Ha | auto].
        -- right. split; [exact E|]. exists x. split; [now right | exact Hlt].
      * destruct (IH ka kb ca cb Hle) as [[E Hall]|[E [x [Hx Hlt]]]].
        -- left. split; [exact E|]. intros x [<-|Hx]; [exact Ha | auto].
        -- right. split; [exact E|]. exists x. split; [now right | exact Hlt].
Qed.

(** X8. The method compares the most common magnitude with the magnitude
    it returns.  With two or more distinct magnitudes the two are the same
    exactly when some magnitude other than the smallest has more events
    than the smallest; otherwise the most common magnitude is the smallest
    one and the magnitude returned is a greater one. *)
Theorem most_common_agrees_iff
    (self : Catalog) (k0 : float64) (c0 : nat) (rest : Series nat) :
  groupby_Magnitude_count (catalog self) = (k0, c0) :: rest ->
  rest <> [] ->
  ((exists k c, In (k, c) rest /\ (c0 < c)%nat) ->
   most_common_magnitude self = maximum_curvature self) /\
  ((forall k c, In (k, c) rest -> (c <= c0)%nat) ->
   most_common_magnitude self = Ok k0 /\
   exists v, maximum_curvature self = Ok v /\ flt k0 v).
Proof.
  intros Hg Hne. destruct rest as [|[k1 c1] t]; [congruence|].
  pose proof (groupby_sorted (catalog self)) as Hs. rewrite Hg in Hs.
  cbn [index map fst] in Hs.
  assert (Hmc : most_common_magnitude self =
                Ok (idxmax_from (k0, of_nat c0) (as_float ((k1, c1) :: t)))).
  { unfold most_common_magnitude. rewrite Hg. unfold idxmax.
    rewrite dropna_as_float. reflexivity. }
  assert (Hinf : maximum_curvature self =
                 Ok (idxmax_from (k1, of_nat c1) (as_float t))).
  { rewrite (maximum_curvature_cons self Hg). unfold idxmax.
    change (dropna ((k0, NaN) :: as_float ((k1, c1) :: t)))
      with (dropna (as_float ((k1, c1) :: t))).
    rewrite dropna_as_float. reflexivity. }
  assert (Hlater : flt k0 (idxmax_from (k1, of_nat c1) (as_float t))).
  { apply (sorted_first Hs).
    pose proof (idxmax_from_In (k1, of_nat c1) (as_float t)) as Hin.
    rewrite index_as_float in Hin. exact Hin. }
  rewrite Hmc, Hinf, idxmax_from_cons.
  destruct (Nat.ltb_spec c0 c1) as [H01|H01].
  - split; [reflexivity|]. intros Hall.
    specialize (Hall k1 c1 (or_introl eq_refl)). lia.
  - destruct (@idxmax_from_dominated t k0 k1 c0 c1 H01)
      as [[E Hall]|[E [x [Hx Hlt]]]].
    + split.
      * intros [k [c [[Hin|Hin] Hlt]]].
        -- injection Hin as <- <-. lia.
        -- specialize (Hall _ Hin). simpl in Hall. lia.
      * intros _. rewrite E. split; [reflexivity|]. eauto.
    + split.
      * intros _. now rewrite E.
      * intros Hall. destruct x as [k c].
        specialize (Hall k c (or_intror Hx)). simpl in Hlt. lia.
Qed.

Lemma most_common_agrees_iff_witness :
  ((exists k c, In (k, c) [(Fin 1.5, 1%nat)]%Q /\ (2 < c)%nat) ->
   most_common_magnitude catalog_mode_first =
     maximum_curvature catalog_mode_first) /\
  ((forall k c, In (k, c) [(Fin 1.5, 1%nat)]%Q -> (c <= 2)%nat) ->
   most_common_magnitude catalog_mode_first = Ok (Fin 1.0) /\
   exists v, maximum_curvature catalog_mode_first = Ok v /\ flt (Fin 1.0) v).
Proof.
  apply (@most_common_agrees_iff catalog_mode_first
           (Fin 1.0) 2%nat [(Fin 1.5, 1%nat)]%Q).
  - reflexivity.
  - discriminate.
Defined.

(** * Further properties of goodness_of_fit_test *)

Section GoodnessOfFitFurther.

Variable np_exp : float64 -> float64.
Variable np_log10 : float64 -> float64.
Variable pow10 : float64 -> float64.



End GoodnessOfFitFurther.


(** ** The sign of a residual *)

Lemma not_negative_cases (x : float64) :
  ~ flt x (Fin 0) <->
  x = NaN \/ x = PInf \/ exists q, x = Fin q /\ (0 <= q)%Q.
Proof.
  destruct x as [q| | |]; split; intros H.
  - right. right. exists q. split; [reflexivity|].
    destruct (Qlt_le_dec q 0) as [Hlt|Hle]; [|exact Hle].
    exfalso. apply H. now apply flt_Fin.
  - destruct H as [H|[H|[q' [H Hq]]]]; try discriminate.
    injection H as ->. intros Hlt. apply flt_Fin in Hlt.
    exact (Qlt_not_le _ _ Hlt Hq).
  - auto.
  - discriminate.
  - exfalso. apply H. reflexivity.
  - destruct H as [H|[H|[q' [H Hq]]]]; discriminate.
  - auto.
  - discriminate.
Qed.

Lemma np_sum_not_negative (l : list float64) :
  (forall x, In x l -> ~ flt x (Fin 0)) -> ~ flt (np_sum l) (Fin 0).
Proof.
  induction l as [|x l IH]; intros H.
  - apply not_negative_cases. right. right. exists 0%Q.
    split; [reflexivity | apply Qle_refl].
  - cbn [np_sum fold_right]. fold (np_sum l).
    pose proof (H x (or_introl eq_refl)) as Hx.
    pose proof (IH (fun y Hy => H y (or_intror Hy))) as Hl.
    apply not_negative_cases in Hx, Hl. apply not_negative_cases.
    destruct Hx as [->|[->|[a [-> Ha]]]];
      destruct Hl as [->|[->|[b [-> Hb]]]]; simpl; auto.
    right. right. exists (a + b)%Q. split; [reflexivity|].
    rewrite <- (Qplus_0_r 0). now apply Qplus_le_compat.
Qed.

Lemma fabs_not_negative (x : float64) : ~ flt (fabs x) (Fin 0).
Proof.
  apply not_negative_cases. destruct x as [q| | |]; simpl; auto.
  right. right. exists (Qabs q). split; [reflexivity | apply Qabs_nonneg].
Qed.

Lemma percent_not_negative (x : float64) (n : nat) :
  ~ flt x (Fin 0) -> ~ flt (fmul (fdiv x (of_nat n)) (Fin 100)) (Fin 0).
Proof.
  intros H. apply not_negative_cases in H. apply not_negative_cases.
  assert (Hn : (0 <= inject_Z (Z.of_nat n))%Q) by (rewrite <- (Zle_Qle 0); lia).
  destruct H as [->|[->|[q [-> Hq]]]]; unfold of_nat.
  - auto.
  - cbn [fdiv fsign]. apply Qle_bool_iff in Hn. rewrite Hn. simpl. auto.
  - cbn [fdiv]. destruct (Qeq_bool (inject_Z (Z.of_nat n)) 0) eqn:E.
    + destruct (Qcompare_spec q 0) as [H|H|H]; simpl; auto.
      exfalso. exact (Qlt_not_le _ _ H Hq).
    + right. right. eexists. split; [reflexivity|].
      apply Qmult_le_0_compat; [|discriminate].
      apply Qle_shift_div_l.
      * destruct (Qle_lteq 0 (inject_Z (Z.of_nat n))) as [Hd _].
        destruct (Hd Hn) as [Hlt|Heq]; [exact Hlt|].
        symmetry in Heq. apply Qeq_bool_iff in Heq. congruence.
      * now rewrite Qmult_0_l.
Qed.

Section ResidualSign.

Variable np_exp : float64 -> float64.
Variable np_log10 : float64 -> float64.
Variable pow10 : float64 -> float64.

(** X13. Whatever the catalog and the cutoff, a residual is never negative:
    it is NaN, +inf or a number that is at least 0. *)
Theorem residual_not_negative (self : Catalog) (t r : float64) :
  residual np_exp np_log10 pow10 self t = Ok r ->
  r = NaN \/ r = PInf \/ exists q, r = Fin q /\ (0 <= q)%Q.
Proof.
  unfold residual. cbv zeta. intros H.
  destruct (mapM (getitem (cumulative_magnitude_frequency self)) _)
    as [obs|]; [|discriminate].
  cbn [bind] in H.
  destruct (mapM _ _) as [mdl|]; [|discriminate].
  cbn [bind] in H. injection H as <-.
  apply not_negative_cases. apply percent_not_negative.
  apply np_sum_not_negative. intros x Hx.
  apply in_map_iff in Hx. destruct Hx as [om [<- _]].
  apply fabs_not_negative.
Qed.

End ResidualSign.

(** The residual of the cutoff 1.5 on the catalog of two events is 0. *)
Lemma residual_not_negative_witness :
  residual Numeric.np_exp Numeric.np_log10 Numeric.pow10
    catalog_two_events (Fin 1.500) = Ok (Fin 0) /\
  (Fin 0 = NaN \/ Fin 0 = PInf \/ exists q, Fin 0 = Fin q /\ (0 <= q)%Q).
Proof.
  split; [vm_compute; reflexivity|].
  apply (@residual_not_negative Numeric.np_exp Numeric.np_log10
           Numeric.pow10 catalog_two_events (Fin 1.500) (Fin 0)).
  vm_compute. reflexivity.
Defined.

(** * Folders and figure files *)

Lemma prefix_empty (s : string) : String.prefix EmptyString s = true.
Proof. destruct s; reflexivity. Qed.

Lemma prefix_refl (s : string) : String.prefix s s = true.
Proof.
  induction s as [|c s IH]; [reflexivity|].
  simpl. destruct (Ascii.ascii_dec c c); [exact IH | congruence].
Qed.

Lemma prefix_append (p s b : string) :
  String.prefix p s = true -> String.prefix p (s ++ b) = true.
Proof.
  revert s. induction p as [|c p IH]; intros s H; [apply prefix_empty|].
  destruct s as [|d s]; [discriminate|].
  simpl in *. destruct (Ascii.ascii_dec c d); [auto | discriminate].
Qed.

Lemma contains_append_l (sub s b : string) :
  contains sub s = true -> contains sub (s ++ b) = true.
Proof.
  induction s as [|c s IH]; intros H.
  - simpl in H. destruct sub; [|discriminate].
    destruct b; reflexivity.
  - cbn [contains] in H. simpl append. cbn [contains].
    destruct (String.prefix sub (String c s)) eqn:E.
    + change (String c (s ++ b)) with (String c s ++ b)%string.
      now rewrite (prefix_append _ _ b E).
    + destruct (String.prefix sub (String c (s ++ b))); auto.
Qed.

Lemma contains_append_r (sub a s : string) :
  contains sub s = true -> contains sub (a ++ s) = true.
Proof.
  intros H. induction a as [|c a IH]; [exact H|].
  simpl append. cbn [contains].
  destruct (String.prefix sub (String c (a ++ s))); auto.
Qed.

Lemma contains_refl (s : string) : contains s s = true.
Proof.
  destruct s as [|c s]; [reflexivity|].
  cbn [contains]. now rewrite prefix_refl.
Qed.

Lemma paths_of_map_Str (l : list string) : flat_map paths_of (map Str l) = l.
Proof. induction l as [|s l IH]; simpl; [reflexivity | now rewrite IH]. Qed.

(** X15. [manage_paths] returns the folders that it creates: read from
    left to right, the str of the returned value are the directories passed
    to [mkdir], in the same order, whatever the arguments. *)
Theorem manage_paths_returns_created (script_name : string)
    (output figures videos : bool) (separate_figure_format : option (list string)) :
  paths_of (snd (manage_paths script_name output figures
                   separate_figure_format videos)) =
  fst (manage_paths script_name output figures separate_figure_format videos).
Proof.
  unfold manage_paths.
  destruct output, figures, videos, separate_figure_format as [l|];
    cbn [fst snd app paths_of flat_map];
    rewrite ?paths_of_map_Str, ?app_nil_r; reflexivity.
Qed.

(** X16. The shape of the value returned by [manage_paths] depends on the
    number of folders asked for.  With exactly one, the value is that entry
    itself: a list of str for the figures, a str otherwise.  With none, two
    or three, it is a list with one entry for each. *)
Theorem manage_paths_shape (script_name : string)
    (output figures videos : bool) (separate_figure_format : option (list string)) :
  let r := snd (manage_paths script_name output figures
                  separate_figure_format videos) in
  if Nat.eqb (requested output figures videos) 1 then
    if figures then exists l, r = PyList (map Str l) else exists p, r = Str p
  else exists l, r = PyList l /\ length l = requested output figures videos.
Proof.
  unfold manage_paths.
  destruct output, figures, videos, separate_figure_format as [l|];
    cbn [fst snd app requested Nat.add Nat.eqb];
    try (eexists; split; reflexivity);
    try (eexists; reflexivity).
  eexists [_]. reflexivity.
Qed.

Lemma save_fig_custom_cons (path_to_figures : list string)
    (figname ext : string) (rest : list string) :
  save_fig_custom path_to_figures figname (ext :: rest) =
  match filter (contains ext) path_to_figures with
  | [] => ([], Err "IndexError"%string)
  | p :: _ =>
      ((p ++ "/" ++ figname ++ "." ++ ext)%string
         :: fst (save_fig_custom path_to_figures figname rest),
       snd (save_fig_custom path_to_figures figname rest))
  end.
Proof.
  cbn [save_fig_custom]. unfold getitem.
  destruct (filter (contains ext) path_to_figures) as [|p t]; [reflexivity|].
  cbn [nth_error]. destruct (save_fig_custom path_to_figures figname rest).
  reflexivity.
Qed.

Lemma filter_nil_iff {A : Type} (f : A -> bool) (l : list A) :
  filter f l = [] <-> forall a, In a l -> f a = false.
Proof.
  induction l as [|a l IH]; simpl.
  - split; [intros _ x [] | reflexivity].
  - destruct (f a) eqn:E.
    + split; [discriminate|]. intros H. rewrite (H a) in E by auto. discriminate.
    + rewrite IH. split.
      * intros H x [<-|Hx]; auto.
      * intros H x Hx. apply H. auto.
Qed.

Lemma save_fig_custom_Ok (path_to_figures : list string)
    (figname : string) (formats : list string) :
  (forall ext, In ext formats ->
     exists p, In p path_to_figures /\ contains ext p = true) ->
  snd (save_fig_custom path_to_figures figname formats) = Ok tt.
Proof.
  induction formats as [|ext rest IH]; intros H; [reflexivity|].
  rewrite save_fig_custom_cons.
  destruct (filter (contains ext) path_to_figures) as [|p t] eqn:E.
  - destruct (H ext (or_introl eq_refl)) as [p [Hp Hc]].
    rewrite filter_nil_iff in E. rewrite (E p Hp) in Hc. discriminate.
  - cbn [snd]. apply IH. intros x Hx. apply H. now right.
Qed.

(** X17. [save_fig_custom] ends normally exactly when every requested
    format occurs in one of the paths; otherwise it raises IndexError. *)
Theorem save_fig_custom_outcome (path_to_figures : list string)
    (figname : string) (formats : list string) :
  (snd (save_fig_custom path_to_figures figname formats) = Ok tt <->
   forall ext, In ext formats ->
     exists p, In p path_to_figures /\ contains ext p = true) /\
  (snd (save_fig_custom path_to_figures figname formats) = Ok tt \/
   snd (save_fig_custom path_to_figures figname formats) =
     Err "IndexError"%string).
Proof.
  split; [split; [|apply save_fig_custom_Ok]|].
  - induction formats as [|ext rest IH]; [intros _ ext []|].
    rewrite save_fig_custom_cons.
    destruct (filter (contains ext) path_to_figures) as [|p t] eqn:E;
      [discriminate|].
    cbn [snd]. intros H x [<-|Hx]; [|auto].
    exists p. apply filter_In. rewrite E. now left.
  - induction formats as [|ext rest IH]; [now left|].
    rewrite save_fig_custom_cons.
    destruct (filter (contains ext) path_to_figures) as [|p t];
      [now right | exact IH].
Qed.

(** X18. Nothing is undone when [save_fig_custom] raises: the figure has
    then been saved in every format listed before the first one that occurs
    in no path, and in none after it. *)
Theorem save_fig_custom_partial (path_to_figures : list string)
    (figname : string) (formats saved : list string) (e : string) :
  save_fig_custom path_to_figures figname formats = (saved, Err e) ->
  exists done ext rest,
    formats = done ++ ext :: rest /\
    (forall p, In p path_to_figures -> contains ext p = false) /\
    save_fig_custom path_to_figures figname done = (saved, Ok tt) /\
    length saved = length done.
Proof.
  revert saved. induction formats as [|ext rest IH]; intros saved H.
  - discriminate.
  - rewrite save_fig_custom_cons in H.
    destruct (filter (contains ext) path_to_figures) as [|p t] eqn:E.
    + injection H as <- _. exists [], ext, rest.
      split; [reflexivity|]. split; [now apply filter_nil_iff|].
      split; reflexivity.
    + destruct (save_fig_custom path_to_figures figname rest) as [sv r] eqn:Er.
      cbn [fst snd] in H. injection H as <- ->.
      destruct (IH sv eq_refl) as [done [x [rest' [-> [Hx [Hd Hl]]]]]].
      exists (ext :: done), x, rest'.
      split; [reflexivity|]. split; [exact Hx|].
      rewrite save_fig_custom_cons, E, Hd. cbn [fst snd length].
      split; [reflexivity | now rewrite Hl].
Qed.

(** With one folder, for svg, the default formats save the svg file and
    then raise on png. *)
Lemma save_fig_custom_partial_witness :
  save_fig_custom ["../3_outputs/example/Figures_svg"%string]
    "MagnitudeDistribution" default_formats =
    (["../3_outputs/example/Figures_svg/MagnitudeDistribution.svg"%string],
     Err "IndexError"%string) /\
  exists done ext rest,
    default_formats = done ++ ext :: rest /\
    (forall p, In p ["../3_outputs/example/Figures_svg"%string] ->
               contains ext p = false) /\
    save_fig_custom ["../3_outputs/example/Figures_svg"%string]
      "MagnitudeDistribution" done =
      (["../3_outputs/example/Figures_svg/MagnitudeDistribution.svg"%string],
       Ok tt) /\
    length ["../3_outputs/example/Figures_svg/MagnitudeDistribution.svg"%string] =
      length done.
Proof.
  split; [reflexivity|].
  apply (@save_fig_custom_partial
           ["../3_outputs/example/Figures_svg"%string]
           "MagnitudeDistribution" default_formats
           ["../3_outputs/example/Figures_svg/MagnitudeDistribution.svg"%string]
           "IndexError").
  reflexivity.
Defined.

Lemma append_assoc (a b c : string) :
  ((a ++ b) ++ c)%string = (a ++ (b ++ c))%string.
Proof. induction a as [|x a IH]; simpl; [reflexivity | now rewrite IH]. Qed.

Lemma figures_folder_contains (script_name ext : string) :
  contains ext ("../3_outputs/" ++ script_name ++ "/Figures_" ++ ext) = true.
Proof.
  apply (contains_append_r ext "../3_outputs/").
  apply contains_append_r.
  apply (contains_append_r ext "/Figures_").
  apply contains_refl.
Qed.

Lemma save_fig_custom_saved (path_to_figures : list string)
    (figname : string) (formats : list string) (file : string) :
  In file (fst (save_fig_custom path_to_figures figname formats)) ->
  exists p ext,
    In p path_to_figures /\ contains ext p = true /\ In ext formats /\
    file = (p ++ "/" ++ figname ++ "." ++ ext)%string.
Proof.
  induction formats as [|ext rest IH]; [intros []|].
  rewrite save_fig_custom_cons.
  destruct (filter (contains ext) path_to_figures) as [|p t] eqn:E; [intros []|].
  assert (Hp : In p path_to_figures /\ contains ext p = true)
    by (apply filter_In; rewrite E; now left).
  cbn [fst]. intros [<-|H].
  - exists p, ext. destruct Hp. repeat split; auto. now left.
  - destruct (IH H) as [p' [x [H1 [H2 [H3 H4]]]]].
    exists p', x. repeat split; auto. now right.
Qed.

Lemma save_fig_custom_length (path_to_figures : list string)
    (figname : string) (formats : list string) :
  snd (save_fig_custom path_to_figures figname formats) = Ok tt ->
  length (fst (save_fig_custom path_to_figures figname formats)) =
  length formats.
Proof.
  induction formats as [|ext rest IH]; [reflexivity|].
  rewrite save_fig_custom_cons.
  destruct (filter (contains ext) path_to_figures) as [|p t]; [discriminate|].
  cbn [fst snd length]. intros H. now rewrite IH.
Qed.

(** X19. The figure folders that [manage_paths] returns for a list of
    formats serve [save_fig_custom] for any of these formats: called as in
    [example.py], with the output folder and the figure folders, it returns
    the pair of both; on the second, [save_fig_custom] raises nothing and
    saves one file for each requested format, each in a folder that
    [manage_paths] created. *)
Theorem save_fig_custom_on_managed_paths (script_name figname : string)
    (separate_figure_format formats : list string) :
  incl formats separate_figure_format ->
  exists path_to_output path_to_figures saved,
    snd (manage_paths script_name true true (Some separate_figure_format) false) =
      PyList [Str path_to_output; PyList (map Str path_to_figures)] /\
    save_fig_custom path_to_figures figname formats = (saved, Ok tt) /\
    length saved = length formats /\
    forall file, In file saved ->
      exists p ext,
        In p (fst (manage_paths script_name true true
                     (Some separate_figure_format) false)) /\
        In ext formats /\
        file = (p ++ "/" ++ figname ++ "." ++ ext)%string.
Proof.
  intros Hincl.
  set (figs := map (fun f => ("../3_outputs/" ++ script_name ++ "/Figures_" ++ f)%string)
                 separate_figure_format).
  assert (Hok : snd (save_fig_custom figs figname formats) = Ok tt).
  { apply save_fig_custom_Ok. intros ext Hext.
    exists ("../3_outputs/" ++ script_name ++ "/Figures_" ++ ext)%string.
    split; [|apply figures_folder_contains].
    unfold figs. apply in_map_iff. exists ext. split; [reflexivity|].
    now apply Hincl. }
  exists ("../2_pipeline/" ++ script_name)%string, figs,
         (fst (save_fig_custom figs figname formats)).
  split; [reflexivity|]. split.
  - rewrite <- Hok. now destruct (save_fig_custom figs figname formats).
  - split; [now apply save_fig_custom_length|].
    intros file Hfile.
    destruct (save_fig_custom_saved _ _ _ _ Hfile) as [p [ext [Hp [_ [Hext ->]]]]].
    exists p, ext. split; [|split; [exact Hext | reflexivity]].
    unfold manage_paths. cbn [fst app].
    right. exact Hp.
Qed.

(** The default folders of [manage_paths] and the default formats of
    [save_fig_custom], which the methods of [Catalog] use. *)
Lemma save_fig_custom_on_managed_paths_witness :
  exists path_to_output path_to_figures saved,
    snd (manage_paths "example" true true (Some default_figure_format) false) =
      PyList [Str path_to_output; PyList (map Str path_to_figures)] /\
    save_fig_custom path_to_figures "MagnitudeDistribution" default_formats =
      (saved, Ok tt) /\
    length saved = length default_formats /\
    forall file, In file saved ->
      exists p ext,
        In p (fst (manage_paths "example" true true
                     (Some default_figure_format) false)) /\
        In ext default_formats /\
        file = (p ++ "/" ++ "MagnitudeDistribution" ++ "." ++ ext)%string.
Proof.
  apply (@save_fig_custom_on_managed_paths "example" "MagnitudeDistribution"
           default_figure_format default_formats).
  intros x [<-|[<-|[]]]; simpl; auto.
Defined.

(** X20. The folder of a figure is chosen by a search for the format in the
    whole path, so the name of the script can decide it: when the name
    contains the format, the file goes to the folder of the first format of
    [manage_paths], whichever that is. *)
Theorem save_fig_custom_script_name_decides (script_name figname ext first : string)
    (others formats : list string) :
  contains ext script_name = true ->
  In ext formats -> incl formats (first :: others) ->
  In ("../3_outputs/" ++ script_name ++ "/Figures_" ++ first ++ "/" ++ figname
        ++ "." ++ ext)%string
     (fst (save_fig_custom
             (map (fun f => ("../3_outputs/" ++ script_name ++ "/Figures_" ++ f)%string)
                  (first :: others))
             figname formats)).
Proof.
  intros Hc Hext Hincl.
  set (figs := map (fun f => ("../3_outputs/" ++ script_name ++ "/Figures_" ++ f)%string)
                 (first :: others)).
  assert (Hfirst : exists t, filter (contains ext) figs =
            ("../3_outputs/" ++ script_name ++ "/Figures_" ++ first)%string :: t).
  { unfold figs. cbn [map filter].
    assert (E : contains ext ("../3_outputs/" ++ script_name ++ "/Figures_" ++ first)
                = true).
    { apply (contains_append_r ext "../3_outputs/").
      now apply contains_append_l. }
    rewrite E. eauto. }
  destruct Hfirst as [t Ht].
  induction formats as [|x rest IH]; [destruct Hext|].
  assert (Hx : exists p u, filter (contains x) figs = p :: u).
  { destruct (filter (contains x) figs) as [|p u] eqn:E; [|eauto].
    exfalso. rewrite filter_nil_iff in E.
    assert (Hin : In ("../3_outputs/" ++ script_name ++ "/Figures_" ++ x)%string figs).
    { unfold figs. apply in_map_iff. exists x. split; [reflexivity|].
      apply Hincl. now left. }
    specialize (E _ Hin). rewrite figures_folder_contains in E. discriminate. }
  rewrite save_fig_custom_cons.
  destruct Hext as [->|Hext].
  - rewrite Ht. cbn [fst]. left.
    now rewrite !append_assoc.
  - destruct Hx as [p [u Hx]]. rewrite Hx. cbn [fst]. right.
    apply IH; [exact Hext|]. intros y Hy. apply Hincl. now right.
Qed.

(** A script named png_statistics: the png file is saved in the folder
    Figures_svg. *)
Lemma save_fig_custom_script_name_decides_witness :
  In "../3_outputs/png_statistics/Figures_svg/MagnitudeDistribution.png"%string
     (fst (save_fig_custom
             ["../3_outputs/png_statistics/Figures_svg";
              "../3_outputs/png_statistics/Figures_png";
              "../3_outputs/png_statistics/Figures_pdf"]%string
             "MagnitudeDistribution" default_formats)).
Proof.
  apply (@save_fig_custom_script_name_decides "png_statistics"
           "MagnitudeDistribution" "png" "svg" ["png"; "pdf"]%string
           default_formats).
  - reflexivity.
  - simpl. auto.
  - intros x [<-|[<-|[]]]; simpl; auto.
Defined.

(** * File names *)

Section GetFileNamesProperties.

Variable listdir : string -> result (list string).

(** The entries that the comprehension keeps for the extension [e]. *)
Lemma select_Str (e start_with end_with : string) (entries : list string) :
  select (Ok (Str e)) start_with end_with entries =
  Ok (filter (fun f => endswith f e && negb (startswith f ".")
                       && startswith f start_with && endswith f end_with)
             entries).
Proof.
  induction entries as [|f t IH]; [reflexivity|].
  cbn [select filter]. rewrite IH. cbn [keep bind].
  destruct (endswith f e && negb (startswith f ".") && startswith f start_with
            && endswith f end_with); reflexivity.
Qed.

Lemma select_PyList (l : list pyobj) (start_with end_with : string)
    (entries : list string) :
  select (Ok (PyList l)) start_with end_with entries =
  match entries with
  | [] => Ok []
  | _ :: _ => Err "TypeError"%string
  end.
Proof. destruct entries; reflexivity. Qed.

(** X21. One data folder and one extension, given as lists of one str as
    in [example.py]: with or without a path number, [get_file_names]
    returns the folder, the extension and the entries of the folder that
    end with the extension and with [end_with], start with [start_with] and
    do not start with a dot, in the order of the listing.  With the path
    number 0 the files are always a list; without a path number a single
    file is returned as a str. *)
Theorem get_file_names_single_path (p e start_with end_with : string)
    (entries : list string) :
  listdir p = Ok entries ->
  exists files,
    (forall f, In f files <->
       In f entries /\ endswith f e = true /\ startswith f "." = false /\
       startswith f start_with = true /\ endswith f end_with = true) /\
    get_file_names listdir (PyList [Str p]) (PyList [Str e]) (Some 0%Z)
      start_with end_with =
      Ok (Str p, Str e, PyList (map Str files)) /\
    get_file_names listdir (PyList [Str p]) (PyList [Str e]) None
      start_with end_with =
      Ok (Str p, Str e,
          match files with
          | [f] => Str f
          | _ => PyList (map Str files)
          end).
Proof.
  intros Hdir.
  exists (filter (fun f => endswith f e && negb (startswith f ".")
                           && startswith f start_with && endswith f end_with)
                 entries).
  split; [|split].
  - intros f. rewrite filter_In, !andb_true_iff, negb_true_iff. tauto.
  - unfold get_file_names, item. cbn [len length Z.of_nat Z.ltb Z.leb Z.compare
      orb Z.to_nat nth_error bind Pos.to_nat Pos.iter_op Z.of_nat Pos.of_succ_nat
      Pos.succ Pos.compare Pos.compare_cont os_listdir].
    rewrite Hdir. cbn [bind]. rewrite select_Str. reflexivity.
  - unfold get_file_names, item. cbn [len length Nat.eqb Z.of_nat Z.ltb Z.leb
      Z.compare orb Z.to_nat nth_error bind Pos.of_succ_nat Pos.succ
      Pos.compare Pos.compare_cont os_listdir].
    rewrite Hdir. cbn [bind]. rewrite select_Str. reflexivity.
Qed.

Lemma item_0_Ok (o : pyobj) : len o = 1%nat -> exists x, item o 0 = Ok x.
Proof.
  intros H. unfold item. rewrite H. cbn.
  destruct o as [s|l]; cbn in H.
  - destruct s as [|c s]; [discriminate|]. cbn. eauto.
  - destruct l as [|x l]; [discriminate|]. cbn. eauto.
Qed.

(** X22. Without a path number, a list of several data folders, or of
    none, is passed on to [os.listdir] as it is: TypeError, whatever the
    other arguments and the content of the folders. *)
Theorem get_file_names_several_paths (paths : list pyobj)
    (file_extensions : pyobj) (start_with end_with : string) :
  length paths <> 1%nat ->
  get_file_names listdir (PyList paths) file_extensions None
    start_with end_with = Err "TypeError"%string.
Proof.
  intros Hn.
  unfold get_file_names. cbn [len].
  destruct (Nat.eqb_spec (length paths) 1) as [E|_]; [contradiction|].
  cbn [bind].
  destruct (Nat.eqb_spec (len file_extensions) 1) as [E|_].
  - destruct (item_0_Ok _ E) as [x ->]. reflexivity.
  - reflexivity.
Qed.

(** X23. Without a path number, a list of several extensions is noticed
    only when the folder has an entry: on an empty folder the call returns
    the list of extensions as it is and no file; on any other folder it
    raises TypeError. *)
Theorem get_file_names_several_extensions (p start_with end_with : string)
    (extensions : list pyobj) (entries : list string) :
  length extensions <> 1%nat ->
  listdir p = Ok entries ->
  get_file_names listdir (PyList [Str p]) (PyList extensions) None
    start_with end_with =
  match entries with
  | [] => Ok (Str p, PyList extensions, PyList [])
  | _ :: _ => Err "TypeError"%string
  end.
Proof.
  intros Hn Hdir.
  unfold get_file_names. cbn [len].
  destruct (Nat.eqb_spec (length extensions) 1) as [E|_]; [contradiction|].
  cbn. rewrite Hdir. cbn [bind]. rewrite select_PyList.
  destruct entries; reflexivity.
Qed.

End GetFileNamesProperties.

Lemma get_file_names_single_path_witness :
  exists files,
    (forall f, In f files <->
       In f ["catalog.parquet"; ".hidden.parquet"; "notes.txt"]%string /\
       endswith f ".parquet" = true /\ startswith f "." = false /\
       startswith f "" = true /\ endswith f "" = true) /\
    get_file_names
      (fun _ => Ok ["catalog.parquet"; ".hidden.parquet"; "notes.txt"]%string)
      (PyList [Str "../0_data"]) (PyList [Str ".parquet"]) (Some 0%Z) "" "" =
      Ok (Str "../0_data", Str ".parquet", PyList (map Str files)) /\
    get_file_names
      (fun _ => Ok ["catalog.parquet"; ".hidden.parquet"; "notes.txt"]%string)
      (PyList [Str "../0_data"]) (PyList [Str ".parquet"]) None "" "" =
      Ok (Str "../0_data", Str ".parquet",
          match files with
          | [f] => Str f
          | _ => PyList (map Str files)
          end).
Proof.
  apply (@get_file_names_single_path
           (fun _ => Ok ["catalog.parquet"; ".hidden.parquet"; "notes.txt"]%string)
           "../0_data" ".parquet" "" ""
           ["catalog.parquet"; ".hidden.parquet"; "notes.txt"]%string).
  reflexivity.
Defined.

Lemma get_file_names_several_paths_witness :
  get_file_names (fun _ => Ok ["catalog.parquet"%string])
    (PyList [Str "../0_data"; Str "../1_data"]) (PyList [Str ".parquet"])
    None "" "" = Err "TypeError"%string.
Proof.
  apply (@get_file_names_several_paths (fun _ => Ok ["catalog.parquet"%string])
           [Str "../0_data"; Str "../1_data"] (PyList [Str ".parquet"]) "" "").
  simpl. lia.
Defined.

Lemma get_file_names_several_extensions_witness :
  get_file_names (fun _ => Ok ["catalog.parquet"%string])
    (PyList [Str "../0_data"]) (PyList [Str ".parquet"; Str ".csv"])
    None "" "" = Err "TypeError"%string.
Proof.
  apply (@get_file_names_several_extensions
           (fun _ => Ok ["catalog.parquet"%string]) "../0_data" "" ""
           [Str ".parquet"; Str ".csv"] ["catalog.parquet"%string]).
  - simpl. lia.
  - reflexivity.
Defined.

(** ** The name of a file without its extension *)

Lemma endswith_append (f e : string) :
  endswith f e = true -> exists s, f = (s ++ e)%string.
Proof.
  induction f as [|c f IH]; cbn [endswith].
  - destruct (String.eqb_spec EmptyString e) as [<-|_]; [|discriminate].
    exists EmptyString. reflexivity.
  - destruct (String.eqb_spec (String c f) e) as [<-|_].
    + exists EmptyString. reflexivity.
    + intros H. destruct (IH H) as [s ->]. exists (String c s). reflexivity.
Qed.

Lemma length_append (s e : string) :
  String.length (s ++ e) = (String.length s + String.length e)%nat.
Proof. induction s as [|c s IH]; simpl; [reflexivity | now rewrite IH]. Qed.

Lemma substring_append (s e : string) :
  substring 0 (String.length s) (s ++ e) = s.
Proof.
  induction s as [|c s IH]; simpl; [now destruct e | now rewrite IH].
Qed.

(** X24. [example.py] takes the short name of a file of
    [get_file_names], which ends with the extension, by cutting as many
    characters as the extension has.  With an extension of one character or
    more, the short name followed by the extension is the file name; with
    the empty extension the short name is empty, whatever the file name. *)
Theorem short_name_extension (file_name file_extension : string) :
  endswith file_name file_extension = true ->
  (file_extension <> EmptyString ->
   (short_name file_name file_extension ++ file_extension)%string = file_name) /\
  (file_extension = EmptyString ->
   short_name file_name file_extension = EmptyString).
Proof.
  intros H. split.
  - intros Hne. destruct (endswith_append _ _ H) as [s ->].
    unfold short_name, slice_to. rewrite length_append.
    assert (Hl : (0 < String.length file_extension)%nat)
      by (destruct file_extension; [congruence | simpl; lia]).
    destruct (Z.ltb_spec (- Z.of_nat (String.length file_extension)) 0) as [_|Hge];
      [|lia].
    replace (Z.to_nat (Z.max 0 (Z.of_nat (String.length s
               + String.length file_extension)
               + - Z.of_nat (String.length file_extension))))
      with (String.length s) by lia.
    now rewrite substring_append.
  - intros ->. unfold short_name, slice_to. cbn.
    now destruct file_name.
Qed.

Lemma short_name_extension_witness :
  (".parquet"%string <> EmptyString ->
   (short_name "catalog.parquet" ".parquet" ++ ".parquet")%string =
     "catalog.parquet"%string) /\
  (".parquet"%string = EmptyString ->
   short_name "catalog.parquet" ".parquet" = EmptyString).
Proof.
  apply (@short_name_extension "catalog.parquet" ".parquet"). reflexivity.
Defined.

(** * Binary64: the numbers that need no rounding *)






























(** * The constructor in binary64 *)





(** ** The first cumulative frequency *)

Lemma arange64_first (start stop step : float64) (grid : list float64)
    (g : float64) :
  Binary64.np_arange start stop step = Ok grid ->
  hd_error grid = Some g -> g = start.
Proof.
  unfold Binary64.np_arange.
  destruct start as [a| | |]; try discriminate.
  destruct stop as [b| | |]; try discriminate.
  destruct step as [s| | |]; try discriminate.
  destruct (Qeq_bool s 0); [discriminate|].
  destruct (Binary64.div _ _) as [n| | |]; try discriminate.
  intros H. injection H as <-.
  destruct (Z.to_nat (Qceiling n)); [discriminate|].
  cbn [seq map hd_error]. intros H. now injection H.
Qed.

Lemma fgtb_flt (x y : float64) : fgtb x y = true <-> flt y x.
Proof.
  unfold fgtb, flt. split.
  - destruct (fcompare x y) as [[| |]|] eqn:E; try discriminate.
    intros _. apply (fcompare_antisym _ _ E).
  - intros H. now rewrite (fcompare_antisym _ _ H).
Qed.

(** C10, as amended.  In binary64, when the grid has a first value [g] and
    half the bin width is not lost in [g - dm/2], the first cumulative
    frequency is the number of events whose rounded magnitude is not NaN;
    it is the number of all events when no rounded magnitude is NaN. *)
Theorem first_cumulative_frequency_is_total
    (df : DataFrame) (dm : float64) (self : Catalog) (g : float64) :
  Binary64.__init__ df dm = Ok self ->
  hd_error (magnitudes_in_catalog self) = Some g ->
  flt (Binary64.sub g (Binary64.div dm (Fin 2))) g ->
  hd_error (cumulative_magnitude_frequency self) =
    Some (length (filter (fun ev => negb (isnan (Magnitude ev)))
                    (catalog self))) /\
  ((forall ev, In ev (catalog self) -> isnan (Magnitude ev) = false) ->
   hd_error (cumulative_magnitude_frequency self) = Some (length df)).
Proof.
  unfold Binary64.__init__. intros Hinit.
  set (cat := map (Binary64.round_to_bin dm) df) in *.
  destruct (index_first (groupby_Magnitude_count cat)) as [lo|] eqn:Hlo;
    [|discriminate].
  destruct (index_last (groupby_Magnitude_count cat)) as [hi|];
    [|discriminate].
  cbn [bind] in Hinit.
  destruct (Binary64.np_arange lo (Binary64.add hi dm) dm) as [grid|] eqn:Hg;
    [|discriminate].
  cbn [bind] in Hinit. injection Hinit as <-.
  cbn [catalog magnitudes_in_catalog cumulative_magnitude_frequency].
  intros Hhd Hcut. pose proof (arange64_first _ _ _ Hg Hhd) as ->.
  destruct grid as [|g0 t]; [discriminate|]. injection Hhd as ->.
  cbn [map hd_error].
  assert (Hcount :
    catalog_above cat (Binary64.sub lo (Binary64.div dm (Fin 2))) =
    filter (fun ev => negb (isnan (Magnitude ev))) cat).
  { unfold catalog_above. apply filter_ext_in. intros ev Hev.
    destruct (isnan (Magnitude ev)) eqn:En.
    - destruct (Magnitude ev); try discriminate. reflexivity.
    - cbn [negb]. apply fgtb_flt.
      destruct (groupby_index_covers cat ev Hev En) as [k [Hk Hek]].
      destruct (index_first_Ok _ Hlo) as [rest Hidx].
      pose proof (groupby_sorted cat) as Hs. rewrite Hidx in Hk, Hs.
      destruct Hk as [<-|Hk].
      + exact (flt_feq_trans Hcut Hek).
      + apply (flt_feq_trans (y := k)); [|exact Hek].
        exact (flt_trans Hcut (sorted_first Hs _ Hk)). }
  rewrite Hcount. split; [reflexivity|].
  intros Hnum. rewrite filter_all.
  - unfold cat. now rewrite length_map.
  - intros ev Hev. now rewrite (Hnum ev Hev).
Qed.

(** With the bin width 0.1 and the magnitudes 1.0, 1.1, 1.3 and 1.3 the
    first cumulative frequency is 4. *)
Lemma first_cumulative_frequency_is_total_witness :
  exists self,
    Binary64.__init__
      (decimal_rows [(0%Z, 1.0); (1%Z, 1.1); (2%Z, 1.3); (3%Z, 1.3)]%Q)
      (Binary64.literal 0.1) = Ok self /\
    hd_error (cumulative_magnitude_frequency self) = Some 4%nat.
Proof.
  eexists. split; [vm_compute; reflexivity|].
  eapply (@first_cumulative_frequency_is_total
            (decimal_rows [(0%Z, 1.0); (1%Z, 1.1); (2%Z, 1.3); (3%Z, 1.3)]%Q)
            (Binary64.literal 0.1)).
  - vm_compute. reflexivity.
  - vm_compute. reflexivity.
  - vm_compute. reflexivity.
  - intros ev Hev. vm_compute in Hev.
    repeat (destruct Hev as [<-|Hev]); try contradiction; reflexivity.
Defined.

(** C10 fails as stated.  An event whose magnitude is NaN is in no bin: of
    the four events with magnitudes 1.0, NaN, 1.5, 1.5 and bin width 0.5
    the first cumulative frequency counts three.  And with the bin width
    [2^-51] half the bin width is lost in [3.0 - dm/2]: the one event of
    magnitude 3.0 is not counted at all. *)
Lemma first_cumulative_frequency_below_total :
  (exists self,
     Binary64.__init__
       [{| DateTime := 0; Magnitude := Fin 1.0 |};
        {| DateTime := 1; Magnitude := NaN |};
        {| DateTime := 2; Magnitude := Fin 1.5 |};
        {| DateTime := 3; Magnitude := Fin 1.5 |}]%Q (Fin 0.5) = Ok self /\
     length (catalog self) = 4%nat /\
     cumulative_magnitude_frequency self = [3; 2]%nat) /\
  (exists self,
     Binary64.__init__ (rows [(0%Z, 3.0)]%Q) (Fin (Binary64.pow2 (-51)))
       = Ok self /\
     length (catalog self) = 1%nat /\
     cumulative_magnitude_frequency self = [0]%nat).
Proof.
  split; eexists; (split; [vm_compute; reflexivity|]);
    split; vm_compute; reflexivity.
Qed.

(** ** Rounding, grid and counts where binary64 rounds nothing *)










(** * goodness_of_fit_test and the grid *)

Lemma fgeb_fle (g v : float64) : fgeb g v = true -> fle v g.
Proof.
  unfold fgeb, fle, fleb.
  destruct (fcompare g v) as [c|] eqn:E; [|discriminate].
  rewrite (fcompare_antisym _ _ E). destruct c; simpl; congruence.
Qed.

Section GoodnessOfFitGrid.

Variable np_exp : float64 -> float64.
Variable np_log10 : float64 -> float64.
Variable pow10 : float64 -> float64.

(** The call on any object that has one cumulative frequency for each grid
    value and a maximum-curvature estimate, such as the constructor
    builds. *)
Lemma goodness_of_fit_value_on (self : Catalog) (seed : float64) :
  length (cumulative_magnitude_frequency self) =
    length (magnitudes_in_catalog self) ->
  maximum_curvature self = Ok seed ->
  exists res v,
    (forall i t,
        nth_error (tested_magnitudes seed) i = Some t ->
        exists r, residual np_exp np_log10 pow10 self t = Ok r /\
                  nth_error res i = Some r) /\
    goodness_of_fit_test np_exp np_log10 pow10 self = Ok v /\
    ((exists i thr, low res thr i /\
                    nth_error (tested_magnitudes seed) i = Some v) \/
     v = seed).
Proof.
  intros Hlen Hseed.
  destruct (@residuals_Ok np_exp np_log10 pow10 self seed Hlen)
    as [res [Hres [Hl Htie]]].
  destruct (@select_completeness_spec seed (tested_magnitudes seed) res)
    as [v [Hsel Hcases]].
  { now rewrite Hl, tested_magnitudes_length. }
  exists res, v. split; [exact Htie|]. split.
  - unfold goodness_of_fit_test. rewrite Hseed. cbn [bind].
    rewrite Hres. cbn [bind]. exact Hsel.
  - destruct Hcases as [[i [[Hlow _] Hv]]|[[_ [i [[Hlow _] Hv]]]|[_ [_ H]]]].
    + left. exists i, (Fin 5). auto.
    + left. exists i, (Fin 10). auto.
    + right. exact H.
Qed.

(** X12. The estimate of [goodness_of_fit_test] is the maximum-curvature
    estimate or a magnitude that some grid value reaches: a tested
    magnitude above the whole grid has no residual and is never returned.
    This holds of every object with one cumulative frequency for each grid
    value, whatever arithmetic built it. *)
Theorem estimate_within_grid (self : Catalog) (seed : float64) :
  length (cumulative_magnitude_frequency self) =
    length (magnitudes_in_catalog self) ->
  maximum_curvature self = Ok seed ->
  exists v,
    goodness_of_fit_test np_exp np_log10 pow10 self = Ok v /\
    (v = seed \/
     exists g, In g (magnitudes_in_catalog self) /\ fle v g).
Proof.
  intros Hlen Hseed.
  destruct (goodness_of_fit_value_on self Hlen Hseed)
    as [res [v [Htie [Hgof Hcases]]]].
  exists v. split; [exact Hgof|].
  destruct Hcases as [[i [thr [[r [Hr Hlow]] Hv]]]|Hv]; [|now left].
  right. destruct (Htie i v Hv) as [r' [Hres Hn]].
  rewrite Hn in Hr. injection Hr as <-.
  destruct (np_where (map (fun g => fgeb g v) (magnitudes_in_catalog self)))
    as [|j rest] eqn:Hw.
  - rewrite (residual_empty_index np_exp np_log10 pow10 self v Hw) in Hres.
    injection Hres as <-. discriminate.
  - apply np_where_first in Hw. destruct Hw as [Hj _].
    rewrite nth_error_map in Hj.
    destruct (nth_error (magnitudes_in_catalog self) j) as [g|] eqn:Hg;
      [|discriminate].
    simpl in Hj. injection Hj as Hj.
    exists g. split; [exact (nth_error_In _ _ Hg) | exact (fgeb_fle _ _ Hj)].
Qed.

(** X14. On an object whose grid is empty every residual is NaN and
    [goodness_of_fit_test] returns the maximum-curvature estimate.  The
    binary64 constructor builds such an object, and raises nothing, from
    the bin width -0.5. *)
Theorem empty_grid_returns_seed (self : Catalog) (seed : float64) :
  magnitudes_in_catalog self = [] ->
  cumulative_magnitude_frequency self = [] ->
  maximum_curvature self = Ok seed ->
  (forall t, residual np_exp np_log10 pow10 self t = Ok NaN) /\
  goodness_of_fit_test np_exp np_log10 pow10 self = Ok seed.
Proof.
  intros Hgrid Hcum Hseed.
  assert (Hnan : forall t, residual np_exp np_log10 pow10 self t = Ok NaN).
  { intros t. apply residual_empty_index. now rewrite Hgrid. }
  split; [exact Hnan|].
  assert (Hlen : length (cumulative_magnitude_frequency self) =
                 length (magnitudes_in_catalog self))
    by now rewrite Hgrid, Hcum.
  destruct (goodness_of_fit_value_on self Hlen Hseed)
    as [res [v [Htie [Hgof Hcases]]]].
  rewrite Hgof. f_equal.
  destruct Hcases as [[i [thr [[r [Hr Hlow]] Hv]]]|Hv]; [|exact Hv].
  exfalso. destruct (Htie i v Hv) as [r' [Hres Hn]].
  rewrite Hnan in Hres. injection Hres as <-.
  rewrite Hn in Hr. injection Hr as <-. discriminate.
Qed.

End GoodnessOfFitGrid.

(** The catalog of two events, 1.0 and 1.5 with the bin width 0.5: the
    estimate 1.5 is a grid value. *)
Lemma estimate_within_grid_witness :
  exists v,
    goodness_of_fit_test Numeric.np_exp Numeric.np_log10 Numeric.pow10
      catalog_two_events = Ok v /\
    (v = Fin 1.5 \/
     exists g, In g (magnitudes_in_catalog catalog_two_events) /\ fle v g).
Proof.
  apply (@estimate_within_grid Numeric.np_exp Numeric.np_log10 Numeric.pow10
           catalog_two_events (Fin 1.5)).
  - reflexivity.
  - vm_compute. reflexivity.
Defined.

(** The magnitudes 1.0 and 1.5 with the bin width -0.5: the constructor
    returns an object with an empty grid, and the estimate is the
    maximum-curvature estimate 1.5. *)
Lemma empty_grid_returns_seed_witness :
  exists self,
    Binary64.__init__ (rows [(0%Z, 1.0); (1%Z, 1.5)]%Q) (Fin (-0.5)) = Ok self /\
    magnitudes_in_catalog self = [] /\
    (forall t, residual Numeric.np_exp Numeric.np_log10 Numeric.pow10 self t
               = Ok NaN) /\
    goodness_of_fit_test Numeric.np_exp Numeric.np_log10 Numeric.pow10 self =
      Ok (Fin 1.5).
Proof.
  eexists. split; [vm_compute; reflexivity|]. split; [reflexivity|].
  apply (@empty_grid_returns_seed Numeric.np_exp Numeric.np_log10
           Numeric.pow10).
  - reflexivity.
  - reflexivity.
  - vm_compute. reflexivity.
Defined.
